(** * doge_quant_system: signal aggregation, risk governance, order
      execution and back-testing

    A shallow embedding of the decision pipeline of the repository
    ([core/signal_combiner.py], [core/risk_manager.py],
    [execution/order_executor.py], [backtesting/backtester.py]) together
    with the properties its specification states about it.

    Numbers.  The Python code computes with [float]; the embedding
    computes with the rationals [Q], that is, with the exact values the
    floating-point operations approximate.  Comparisons are the boolean
    comparisons of [Q]; results are compared with [==] (or with [=] where
    the code returns a literal).  Division is [Qdiv]; every division of
    the source whose divisor can be zero is either guarded in the source
    (and the guard is embedded) or raises in the embedding as it does in
    Python, except where said otherwise at the definition. *)

From Stdlib Require Import QArith Qabs Lqa Lia List.
From stdpp Require Import base option list strings gmap.

Local Open Scope Q_scope.

(** ** Python arithmetic helpers *)

(** Strict comparison [x < y] as a boolean. *)
Definition Qlt_bool (x y : Q) : bool := negb (Qle_bool y x).

(** [min(a, b)] of Python: the first argument unless the second is
    strictly smaller. *)
Definition py_min (a b : Q) : Q := if Qlt_bool b a then b else a.

(** [max(a, b)] of Python: the first argument unless the second is
    strictly greater. *)
Definition py_max (a b : Q) : Q := if Qlt_bool a b then b else a.

(** [len(l)] as a rational. *)
Definition Qlen {A} (l : list A) : Q := inject_Z (Z.of_nat (length l)).

(** ** core/signal_combiner.py *)

Module SignalCombiner.

(** A strategy signal is a dictionary; [combine_signals] reads it with
    [dict.get] and a default, so every key may be absent. *)
Record Signal := {
  strategy : option string;
  signal : option Q;
  confidence : option Q;
  reason : option string
}.

(** One entry of [reasons].  The source formats
    [f"{strategy_name}: {reason} (confidence)"]; the embedding keeps the
    three parts apart instead of rendering the float. *)
Record Reason := {
  reason_strategy : string;
  reason_text : option string;
  reason_confidence : Q
}.

(** One entry of [details]. *)
Record Detail := {
  detail_signal : Q;
  detail_confidence : Q;
  detail_weight : Q;
  raw_signal : Signal
}.

(** The dictionary [combine_signals] returns. *)
Record CombinedSignal := {
  final_signal : Q;
  combined_confidence : Q;
  reasons : list Reason;
  details : gmap string Detail
}.

(** The local variables of the loop of [combine_signals]. *)
Record Acc := {
  total_weight : Q;
  weighted_signal : Q;
  total_confidence : Q;
  acc_reasons : list Reason;
  acc_details : gmap string Detail
}.

Definition acc0 : Acc :=
  {| total_weight := 0; weighted_signal := 0; total_confidence := 0;
     acc_reasons := []; acc_details := ∅ |}.

(** [weights.get(strategy_name, 1.0/len(strategy_signals) if
    len(strategy_signals) > 0 else 0)] *)
Definition weight_of (weights : gmap string Q) (n : nat) (name : string) : Q :=
  default (if (0 <? n)%nat then 1 / inject_Z (Z.of_nat n) else 0)
          (weights !! name).

(** The confidence and the weight the loop reads for a signal of a list
    of [n] signals. *)
Definition confidence_read (s : Signal) : Q := default 0 (confidence s).

Definition weight_read (weights : gmap string Q) (n : nat) (s : Signal) : Q :=
  weight_of weights n (default "unknown"%string (strategy s)).

(** The body of [for signal in strategy_signals]; [n] is
    [len(strategy_signals)]. *)
Definition combine_step (weights : gmap string Q) (n : nat)
    (a : Acc) (s : Signal) : Acc :=
  let strategy_name := default "unknown"%string (strategy s) in
  let signal_value := default 0 (signal s) in
  let conf := default 0 (confidence s) in
  let weight := weight_of weights n strategy_name in
  if Qlt_bool 0 conf then
    {| total_weight := total_weight a + conf * weight;
       weighted_signal := weighted_signal a + signal_value * conf * weight;
       total_confidence := total_confidence a + conf * weight;
       acc_reasons :=
         if negb (Qeq_bool signal_value 0)
         then acc_reasons a ++
                [ {| reason_strategy := strategy_name;
                     reason_text := reason s;
                     reason_confidence := conf |} ]
         else acc_reasons a;
       acc_details :=
         <[ strategy_name :=
              {| detail_signal := signal_value; detail_confidence := conf;
                 detail_weight := weight; raw_signal := s |} ]>
           (acc_details a) |}
  else a.

Definition combine_loop (weights : gmap string Q)
    (strategy_signals : list Signal) : Acc :=
  fold_left (combine_step weights (length strategy_signals))
            strategy_signals acc0.

(** [SignalCombiner.combine_signals]; [weights] is
    [config.get("strategy_weights", {})]. *)
Definition combine_signals (weights : gmap string Q)
    (strategy_signals : list Signal) : CombinedSignal :=
  let a := combine_loop weights strategy_signals in
  let final := if Qlt_bool 0 (total_weight a)
               then weighted_signal a / total_weight a else 0 in
  let conf := if Qlt_bool 0 (total_weight a)
              then total_confidence a / total_weight a else 0 in
  {| final_signal := final;
     combined_confidence := py_max 0 (py_min 1 conf);
     reasons := acc_reasons a;
     details := acc_details a |}.

(** [SignalCombiner.should_trade] with its default [threshold = 0.3]. *)
Definition should_trade_with (combined : CombinedSignal) (threshold : Q) : bool :=
  Qle_bool threshold (Qabs (final_signal combined))
  && Qle_bool (2 # 10) (combined_confidence combined).

Definition should_trade (combined : CombinedSignal) : bool :=
  should_trade_with combined (3 # 10).

Inductive OrderType := buy | sell.

(** [SignalCombiner.determine_order_type] *)
Definition determine_order_type (sig : Q) : OrderType :=
  if Qlt_bool 0 sig then buy else sell.

(** [SignalCombiner.calculate_position_size].  The division by
    [current_price] is [Qdiv]: a zero price (for which a Python float
    raises [ZeroDivisionError]) is outside the domain of the statements
    made about this function. *)
Definition signal_factor (sig : Q) : Q :=
  py_min 3 (py_max (5 # 10) (Qabs sig * 2)).

Definition calculate_position_size (sig account_value current_price : Q) : Q :=
  let base_position := account_value * (1 # 100) in
  (base_position * signal_factor sig) / current_price.

(** Two signal shapes for the concrete cases: a producer that abstains
    (confidence 0) and one that is certain (confidence 1). *)
Definition silent (name : string) (v : Q) : Signal :=
  {| strategy := Some name; signal := Some v; confidence := Some 0;
     reason := None |}.

Definition confident (name : string) (v : Q) : Signal :=
  {| strategy := Some name; signal := Some v; confidence := Some 1;
     reason := None |}.

(** What the loop reads from a signal, and what it records for one that
    contributes. *)
Definition signal_read (s : Signal) : Q := default 0 (signal s).

Definition name_read (s : Signal) : string := default "unknown"%string (strategy s).

(** [confidence > 0]: the signal enters the sums and [details]. *)
Definition contributes (s : Signal) : bool := Qlt_bool 0 (confidence_read s).

(** [confidence > 0] and [signal_value != 0]: the signal enters
    [reasons]. *)
Definition gives_reason (s : Signal) : bool :=
  contributes s && negb (Qeq_bool (signal_read s) 0).

Definition reason_of (s : Signal) : Reason :=
  {| reason_strategy := name_read s; reason_text := reason s;
     reason_confidence := confidence_read s |}.

Definition detail_of (weights : gmap string Q) (n : nat) (s : Signal) : Detail :=
  {| detail_signal := signal_read s; detail_confidence := confidence_read s;
     detail_weight := weight_read weights n s; raw_signal := s |}.

End SignalCombiner.

(** ** Effects: the clock, the exchange and exceptions

    The live components read the wall clock ([time.time()]), query the
    exchange through [MarketData] and submit orders through it.  Every
    such call may answer differently each time it is made, and the
    exchange calls may raise.  The embedding makes the answers an
    [Oracle] indexed by the number of calls made so far, and threads the
    call counters, together with the two objects [RiskManager] and
    [OrderExecutor], through a state-and-exception monad. *)

Inductive outcome (A : Type) : Type :=
| Returns (a : A)
| Raises (e : string).
Arguments Returns {A} a.
Arguments Raises {A} e.

Module Live.

Inductive Currency := DOGE | USDT.

(** The dictionary [MarketData.place_order] returns: [code], [msg] and
    [data], a list of dictionaries of which only [ordId] is read. *)
Record Response := {
  code : option string;
  msg : option string;
  data : option (list (option string))
}.

(** The arguments of one [place_order] call. *)
Record PlaceCall := {
  pc_side : string;
  pc_sz : Q;
  pc_ordType : string;
  pc_px : option Q
}.

Record Oracle := {
  time_time : nat -> Q;
  account_balance : nat -> Currency -> outcome Q;
  current_price : nat -> outcome Q;
  exchange : nat -> PlaceCall -> outcome Response
}.

(** The fields of [RiskManager]. *)
Record RiskManager := {
  daily_pnl : Q;
  daily_loss : Q;
  daily_reset_time : Q;
  initial_balance : Q;
  last_balance : Q;
  max_daily_loss_reached : bool
}.

Inductive Status := pending | success | failed | error | cancelled.

(** One dictionary of [order_history]; [price] and [execution_time] are
    present on successful orders only, [order_error] on the others. *)
Record Order := {
  timestamp : Q;
  type : string;
  size : Q;
  price : option Q;
  order_id : string;
  status : Status;
  execution_time : option Q;
  order_error : option string
}.

(** The fields of [OrderExecutor]. *)
Record OrderExecutor := {
  last_order_time : Q;
  min_order_interval : Q;
  order_history : list Order
}.

(** The state threaded through the monad: the two objects, the number
    of clock, balance and price queries made so far, and the log of
    [place_order] invocations. *)
Record State := {
  risk_manager : RiskManager;
  executor : OrderExecutor;
  n_time : nat;
  n_balance : nat;
  n_price : nat;
  placed : list PlaceCall
}.

Definition M (A : Type) : Type := State -> outcome A * State.

#[global] Instance M_ret : MRet M := fun A a s => (Returns a, s).

Definition raise {A} (e : string) : M A := fun s => (Raises e, s).

#[global] Instance M_bind : MBind M := fun A B k m s =>
  match m s with
  | (Returns a, s') => k a s'
  | (Raises e, s') => (Raises e, s')
  end.

(** [try: m  except Exception as e: h e] *)
Definition try_except {A} (m : M A) (h : string -> M A) : M A :=
  fun s => match m s with
           | (Returns a, s') => (Returns a, s')
           | (Raises e, s') => h e s'
           end.

Definition get {A} (f : State -> A) : M A := fun s => (Returns (f s), s).

Definition modify (f : State -> State) : M unit := fun s => (Returns tt, f s).

Abbreviation ret := (@mret M M_ret _).

Definition set_risk_manager (r : RiskManager) (s : State) : State :=
  {| risk_manager := r; executor := executor s; n_time := n_time s;
     n_balance := n_balance s; n_price := n_price s; placed := placed s |}.

Definition set_executor (e : OrderExecutor) (s : State) : State :=
  {| risk_manager := risk_manager s; executor := e; n_time := n_time s;
     n_balance := n_balance s; n_price := n_price s; placed := placed s |}.

Definition set_flag (b : bool) (r : RiskManager) : RiskManager :=
  {| daily_pnl := daily_pnl r; daily_loss := daily_loss r;
     daily_reset_time := daily_reset_time r;
     initial_balance := initial_balance r; last_balance := last_balance r;
     max_daily_loss_reached := b |}.

Definition set_last_order_time (t : Q) (e : OrderExecutor) : OrderExecutor :=
  {| last_order_time := t; min_order_interval := min_order_interval e;
     order_history := order_history e |}.

Definition set_order_history (h : list Order) (e : OrderExecutor) : OrderExecutor :=
  {| last_order_time := last_order_time e;
     min_order_interval := min_order_interval e; order_history := h |}.

(** [ZeroDivisionError] of a float division. *)
Definition py_div (a b : Q) : M Q :=
  if Qeq_bool b 0 then raise "ZeroDivisionError" else ret (a / b).

Section Collaborators.

Variable O : Oracle.
(** [config_manager.get_risk_params()] *)
Variable risk_params : gmap string Q.

(** [time.time()] *)
Definition now : M Q := fun s =>
  (Returns (time_time O (n_time s)),
   {| risk_manager := risk_manager s; executor := executor s;
      n_time := S (n_time s); n_balance := n_balance s;
      n_price := n_price s; placed := placed s |}).

(** [market_data.get_account_balance(ccy)] *)
Definition get_account_balance (ccy : Currency) : M Q := fun s =>
  (account_balance O (n_balance s) ccy,
   {| risk_manager := risk_manager s; executor := executor s;
      n_time := n_time s; n_balance := S (n_balance s);
      n_price := n_price s; placed := placed s |}).

(** [market_data.get_current_price()] *)
Definition get_current_price : M Q := fun s =>
  (current_price O (n_price s),
   {| risk_manager := risk_manager s; executor := executor s;
      n_time := n_time s; n_balance := n_balance s;
      n_price := S (n_price s); placed := placed s |}).

(** [market_data.place_order(side, sz, ordType, px)]: the call is
    logged in [placed] whatever its outcome. *)
Definition place_order (c : PlaceCall) : M Response := fun s =>
  (exchange O (length (placed s)) c,
   {| risk_manager := risk_manager s; executor := executor s;
      n_time := n_time s; n_balance := n_balance s;
      n_price := n_price s; placed := placed s ++ [c] |}).

(** *** core/risk_manager.py *)

(** [RiskManager._get_current_balance]; [fallback] is what the
    [except] branch returns: [self.last_balance] once the attribute
    exists, [0.0] during [__init__]. *)
Definition _get_current_balance_or (fallback : State -> Q) : M Q :=
  try_except
    (doge_balance ← get_account_balance DOGE;
     usdt_balance ← get_account_balance USDT;
     current_price ← get_current_price;
     ret (doge_balance * current_price + usdt_balance))
    (fun _ => get fallback).

Definition _get_current_balance : M Q :=
  _get_current_balance_or (fun s => last_balance (risk_manager s)).

(** [RiskManager.__init__] *)
Definition RiskManager_init : M unit :=
  t ← now;
  b ← _get_current_balance_or (fun _ => 0);
  modify (set_risk_manager
    {| daily_pnl := 0; daily_loss := 0; daily_reset_time := t;
       initial_balance := b; last_balance := b;
       max_daily_loss_reached := false |}).

(** [RiskManager.reset_daily_metrics] *)
Definition reset_daily_metrics : M unit :=
  t ← now;
  b ← _get_current_balance;
  modify (set_risk_manager
    {| daily_pnl := 0; daily_loss := 0; daily_reset_time := t;
       initial_balance := b; last_balance := b;
       max_daily_loss_reached := false |}).

(** [RiskManager.update_metrics] *)
Definition update_metrics : M unit :=
  current_time ← now;
  reset_time ← get (fun s => daily_reset_time (risk_manager s));
  (if Qlt_bool 86400 (current_time - reset_time)
       then reset_daily_metrics else ret tt);;
  current_balance ← _get_current_balance;
  r ← get risk_manager;
  let pnl := current_balance - initial_balance r in
  let loss := py_max 0 (last_balance r - current_balance) in
  let max_daily_loss := default 3 (risk_params !! "max_daily_loss"%string) in
  let reached :=
    if Qlt_bool 0 (initial_balance r) then
      let loss_percent := (loss / initial_balance r) * 100 in
      if Qle_bool max_daily_loss loss_percent
         && negb (max_daily_loss_reached r)
      then true else max_daily_loss_reached r
    else max_daily_loss_reached r in
  modify (set_risk_manager
    {| daily_pnl := pnl; daily_loss := loss;
       daily_reset_time := daily_reset_time r;
       initial_balance := initial_balance r;
       last_balance := current_balance;
       max_daily_loss_reached := reached |}).

(** [RiskManager.check_position_size] *)
Definition check_position_size (proposed_size : Q) : M Q :=
  let max_position_percent :=
    default 5 (risk_params !! "max_position_percent"%string) in
  account_value ← _get_current_balance;
  let max_position_usdt := account_value * (max_position_percent / 100) in
  current_price ← get_current_price;
  max_doge_position ← py_div max_position_usdt current_price;
  ret (py_min proposed_size max_doge_position).

(** [RiskManager.should_stop_trading] *)
Definition should_stop_trading : M bool :=
  let max_daily_loss := default 3 (risk_params !! "max_daily_loss"%string) in
  account_value ← _get_current_balance;
  r ← get risk_manager;
  if Qle_bool (initial_balance r) 0 then ret false
  else
    let loss_percent :=
      ((initial_balance r - account_value) / initial_balance r) * 100 in
    let should_stop := Qle_bool max_daily_loss loss_percent in
    (if should_stop && negb (max_daily_loss_reached r)
     then modify (fun s => set_risk_manager (set_flag true (risk_manager s)) s)
     else if negb should_stop
     then modify (fun s => set_risk_manager (set_flag false (risk_manager s)) s)
     else ret tt);;
    ret should_stop.

(** *** execution/order_executor.py *)

(** The dictionary [execute_order] returns.  [Rejected] is the reply
    built when [_can_place_order] is false; its two booleans are
    [details["time_constraint"]] and [details["risk_constraint"]].
    [Submitted], [Failed] and [Errored] are the three replies built
    after [place_order] was attempted. *)
Inductive ExecResult :=
| Rejected (time_constraint risk_constraint : bool)
| Submitted (oid : string) (details : Response)
| Failed (error_msg : string) (details : Response)
| Errored (e : string).

(** The ["success"] entry of the reply. *)
Definition exec_success (r : ExecResult) : bool :=
  match r with Submitted _ _ => true | _ => false end.

(** [OrderExecutor.__init__] *)
Definition OrderExecutor_init : M unit :=
  modify (set_executor
    {| last_order_time := 0; min_order_interval := 60;
       order_history := [] |}).

(** [OrderExecutor._can_place_order].  The throttled branch reads the
    clock a second time to log the elapsed time. *)
Definition _can_place_order : M bool :=
  t ← now;
  e ← get executor;
  if Qlt_bool (t - last_order_time e) (min_order_interval e) then
    _ ← now;
    ret false
  else
    stop ← should_stop_trading;
    if (stop : bool) then ret false else ret true.

Definition append_order (o : Order) : M unit :=
  modify (fun s =>
    set_executor
      (set_order_history (order_history (executor s) ++ [o]) (executor s)) s).

(** [result.get("data", [{}])[0].get("ordId", "unknown")]: indexing
    an empty list raises [IndexError]. *)
Definition first_ordId (result : Response) : M string :=
  match data result with
  | None => ret "unknown"%string
  | Some [] => raise "IndexError"
  | Some (d :: _) => ret (default "unknown"%string d)
  end.

(** [OrderExecutor.execute_order]; [px] is [order_params.get("px")]
    (the other entries of [params] are overwritten by
    [params.update] and [ordType] is always ["market"]).  The default
    of [result.get("msg", ...)] is rendered ["unknown error"]. *)
Definition execute_order (order_type : string) (sz : Q) (px : option Q)
    : M ExecResult :=
  ok ← _can_place_order;
  if negb ok then
    t ← now;
    e ← get executor;
    risk_constraint ← should_stop_trading;
    ret (Rejected (Qlt_bool (t - last_order_time e) (min_order_interval e))
                   risk_constraint)
  else
    adjusted_size ← check_position_size sz;
    try_except
      (start_time ← now;
       result ← place_order {| pc_side := order_type; pc_sz := adjusted_size;
                               pc_ordType := "market"; pc_px := px |};
       end_time ← now;
       let exec_time := end_time - start_time in
       t_last ← now;
       modify (fun s => set_executor (set_last_order_time t_last (executor s)) s);;
       if bool_decide (code result = Some "0"%string) then
         oid ← first_ordId result;
         current_price ← get_current_price;
         ts ← now;
         append_order
           {| timestamp := ts; type := order_type; size := adjusted_size;
              price := Some current_price; order_id := oid;
              status := success; execution_time := Some exec_time;
              order_error := None |};;
         ret (Submitted oid result)
       else
         let error_msg := default "unknown error"%string (msg result) in
         ts ← now;
         append_order
           {| timestamp := ts; type := order_type; size := adjusted_size;
              price := None; order_id := "failed"; status := failed;
              execution_time := None; order_error := Some error_msg |};;
         ret (Failed error_msg result))
      (fun e =>
         ts ← now;
         append_order
           {| timestamp := ts; type := order_type; size := adjusted_size;
              price := None; order_id := "error"; status := error;
              execution_time := None; order_error := Some e |};;
         ret (Errored e)).

(** [OrderExecutor.get_order_status]: the first order of the history
    with that identifier, [None] for "order does not exist". *)
Definition get_order_status (oid : string) : M (option Order) :=
  get (fun s =>
    find (fun o => String.eqb (order_id o) oid) (order_history (executor s))).

Definition is_pending (st : Status) : bool :=
  match st with pending => true | _ => false end.

Definition set_status (st : Status) (o : Order) : Order :=
  {| timestamp := timestamp o; type := type o; size := size o;
     price := price o; order_id := order_id o; status := st;
     execution_time := execution_time o; order_error := order_error o |}.

(** The loop of [cancel_order]: the first order with that identifier
    and status ["pending"] becomes ["cancelled"], in place; [None]
    when the loop ends without finding one. *)
Fixpoint cancel_first (oid : string) (h : list Order) : option (list Order) :=
  match h with
  | [] => None
  | o :: h' =>
      if String.eqb (order_id o) oid && is_pending (status o)
      then Some (set_status cancelled o :: h')
      else option_map (cons o) (cancel_first oid h')
  end.

Inductive CancelResult :=
| CancelOk (oid : string)
| CancelRefused.

(** The ["success"] entry of the reply of [cancel_order]. *)
Definition cancel_success (r : CancelResult) : bool :=
  match r with CancelOk _ => true | CancelRefused => false end.

(** [OrderExecutor.cancel_order].  Nothing in the [try] block can
    raise on a history built by [execute_order] (every record has an
    ["order_id"] and a ["status"]), so the [except] branch is dead. *)
Definition cancel_order (oid : string) : M CancelResult :=
  e ← get executor;
  match cancel_first oid (order_history e) with
  | Some h' =>
      modify (fun s => set_executor (set_order_history h' (executor s)) s);;
      ret (CancelOk oid)
  | None => ret CancelRefused
  end.

(** *** Observations used to state the properties *)

(** The account value [_get_current_balance] computes when called in
    state [s]: the exchange's answer, or [last_balance] when one of
    the three queries raises. *)
Definition account_value_at (s : State) : Q :=
  match account_balance O (n_balance s) DOGE with
  | Returns doge_balance =>
      match account_balance O (S (n_balance s)) USDT with
      | Returns usdt_balance =>
          match current_price O (n_price s) with
          | Returns p => doge_balance * p + usdt_balance
          | Raises _ => last_balance (risk_manager s)
          end
      | Raises _ => last_balance (risk_manager s)
      end
  | Raises _ => last_balance (risk_manager s)
  end.

(** The rolling loss ratio, in percent of the balance at the start of
    the window. *)
Definition loss_ratio_percent (r : RiskManager) (account_value : Q) : Q :=
  ((initial_balance r - account_value) / initial_balance r) * 100.

(** The halt condition: the window started with a positive balance
    and the loss ratio has reached [max_daily_loss]. *)
Definition halt_condition (r : RiskManager) (account_value : Q) : bool :=
  negb (Qle_bool (initial_balance r) 0)
  && Qle_bool (default 3 (risk_params !! "max_daily_loss"%string))
              (loss_ratio_percent r account_value).

(** The verdict of the risk-halt gate in state [s]. *)
Definition halted (s : State) : bool :=
  halt_condition (risk_manager s) (account_value_at s).

(** The verdict of the throttle gate in state [s]: the clock is less
    than [min_order_interval] past [last_order_time]. *)
Definition throttled (s : State) : bool :=
  Qlt_bool (time_time O (n_time s) - last_order_time (executor s))
           (min_order_interval (executor s)).

(** From state [s] on, the clock stands still and the exchange keeps
    answering the balance and price queries the same way: the call
    that starts in [s] is short against the pace of the market. *)
Definition frozen (s : State) : Prop :=
  (forall n, (n_time s <= n)%nat -> time_time O n = time_time O (n_time s))
  /\ (forall n ccy, (n_balance s <= n)%nat ->
        account_balance O n ccy = account_balance O (n_balance s) ccy)
  /\ (forall n, (n_price s <= n)%nat ->
        current_price O n = current_price O (n_price s)).

(** [s'] is [s] up to the query counters: both objects and the log of
    submitted orders are the same. *)
Definition same_objects (s s' : State) : Prop :=
  risk_manager s' = risk_manager s
  /\ executor s' = executor s
  /\ placed s' = placed s
  /\ n_time s' = n_time s
  /\ (n_balance s <= n_balance s')%nat
  /\ (n_price s <= n_price s')%nat.

(** [s'] comes no earlier than [s] in the sequence of queries. *)
Definition later (s s' : State) : Prop :=
  (n_time s <= n_time s')%nat
  /\ (n_balance s <= n_balance s')%nat
  /\ (n_price s <= n_price s')%nat.

(** [s'] differs from [s] by queries made and, at most, by the flag
    [max_daily_loss_reached]: what the gates do to the state. *)
Definition gate_footprint (s s' : State) : Prop :=
  executor s' = executor s
  /\ placed s' = placed s
  /\ later s s'
  /\ initial_balance (risk_manager s') = initial_balance (risk_manager s)
  /\ last_balance (risk_manager s') = last_balance (risk_manager s).

(** [s'] has the executor and the submission log of [s]. *)
Definition quiet (s s' : State) : Prop :=
  executor s' = executor s /\ placed s' = placed s.

(** The statuses [execute_order] records. *)
Definition terminal (st : Status) : Prop :=
  st = success \/ st = failed \/ st = error.

(** The ledger of [s'] is the ledger of [s] followed by records whose
    status is terminal: the ledger is append-only. *)
Definition history_extends (s s' : State) : Prop :=
  exists l, order_history (executor s') = order_history (executor s) ++ l
            /\ Forall (fun o => terminal (status o)) l.

(** A computation relates every start state to its end state by [R],
    whether it returns or raises. *)
Definition always {A} (R : State -> State -> Prop) (m : M A) : Prop :=
  forall s, R s (snd (m s)).

(** The state in which [place_order] is called: the gates passed and the
    size was clamped to [adjusted_size]. *)
Definition submits (order_type : string) (sz : Q) (px : option Q)
    (s : State) (c : PlaceCall) (s2 : State) : Prop :=
  exists s1 adjusted_size,
    _can_place_order s = (Returns true, s1)
    /\ check_position_size sz s1 = (Returns adjusted_size, s2)
    /\ c = {| pc_side := order_type; pc_sz := adjusted_size;
              pc_ordType := "market"; pc_px := px |}.

(** The calls a session makes on the two objects. *)
Inductive Call :=
| CallUpdateMetrics
| CallResetDailyMetrics
| CallShouldStopTrading
| CallCheckPositionSize (proposed_size : Q)
| CallExecuteOrder (order_type : string) (sz : Q) (px : option Q)
| CallGetOrderStatus (oid : string)
| CallCancelOrder (oid : string).

(** The state a call leaves behind, whether it returns or raises. *)
Definition perform (c : Call) (s : State) : State :=
  match c with
  | CallUpdateMetrics => snd (update_metrics s)
  | CallResetDailyMetrics => snd (reset_daily_metrics s)
  | CallShouldStopTrading => snd (should_stop_trading s)
  | CallCheckPositionSize p => snd (check_position_size p s)
  | CallExecuteOrder t z px => snd (execute_order t z px s)
  | CallGetOrderStatus oid => snd (get_order_status oid s)
  | CallCancelOrder oid => snd (cancel_order oid s)
  end.

(** The state after the two constructors ran, as in
    [run_trading_system]; [blank] only provides the counters. *)
Definition session_start (blank : State) : State :=
  snd ((RiskManager_init;; OrderExecutor_init) blank).

(** The states a session can be in. *)
Inductive reachable : State -> Prop :=
| reachable_start blank : reachable (session_start blank)
| reachable_call s c : reachable s -> reachable (perform c s).

(** *** The remaining methods of the two objects *)

(** [RiskManager.calculate_stop_loss] *)
Definition calculate_stop_loss (entry_price : Q) : Q :=
  let stop_loss_percent :=
    default 5 (risk_params !! "stop_loss_percent"%string) in
  entry_price * (1 - stop_loss_percent / 100).

(** [RiskManager.calculate_take_profit] *)
Definition calculate_take_profit (entry_price : Q) : Q :=
  let take_profit_ratio :=
    default 2 (risk_params !! "take_profit_ratio"%string) in
  let stop_loss_percent :=
    default 5 (risk_params !! "stop_loss_percent"%string) in
  let take_profit_percent := stop_loss_percent * take_profit_ratio in
  entry_price * (1 + take_profit_percent / 100).

(** The dictionary [get_risk_metrics] returns. *)
Record RiskMetrics := {
  metrics_account_value : Q;
  metrics_daily_pnl : Q;
  metrics_daily_loss : Q;
  metrics_daily_loss_percent : Q;
  metrics_max_daily_loss : Q;
  metrics_should_stop : bool;
  metrics_max_position_size : Q
}.

(** [RiskManager.get_risk_metrics].  The entries of the dictionary are
    evaluated in the order they are written: the balance is queried a
    first time for [account_value], then by [should_stop_trading], then
    a third time for [max_position_size], whose division by the current
    price can raise. *)
Definition get_risk_metrics : M RiskMetrics :=
  account_value ← _get_current_balance;
  r ← get risk_manager;
  let loss_percent :=
    if Qlt_bool 0 (initial_balance r)
    then ((initial_balance r - account_value) / initial_balance r) * 100
    else 0 in
  should_stop ← should_stop_trading;
  balance ← _get_current_balance;
  current_price ← get_current_price;
  max_position_size ←
    py_div (balance
            * (default 5 (risk_params !! "max_position_percent"%string) / 100))
           current_price;
  ret {| metrics_account_value := account_value;
         metrics_daily_pnl := daily_pnl r;
         metrics_daily_loss := daily_loss r;
         metrics_daily_loss_percent := loss_percent;
         metrics_max_daily_loss :=
           default 3 (risk_params !! "max_daily_loss"%string);
         metrics_should_stop := should_stop;
         metrics_max_position_size := max_position_size |}.

(** The slice [l[start:]] of Python for an integer [start]: a negative
    [start] counts from the end, and out-of-range bounds are clipped. *)
Definition py_slice_from {A} (start : Z) (l : list A) : list A :=
  let len := Z.of_nat (length l) in
  drop (Z.to_nat (if (start <? 0)%Z then Z.max 0 (len + start)
                  else Z.min start len)) l.

(** Whether a record has a ["price"] entry. *)
Definition has_price (o : Order) : bool :=
  match price o with Some _ => true | None => false end.

(** The rows of the data frame [OrderExecutor.get_trade_history] returns,
    before it sorts them by timestamp: none for an empty history,
    otherwise the records of the slice [order_history[-limit:]].  The
    frame built from the slice has a price column only if one of its
    records has a ["price"] entry; selecting the price column of a frame
    without one raises [KeyError].  The sorting, the renaming and the
    projection on the selected columns are not modelled. *)
Definition get_trade_history_rows (limit : Z) : M (list Order) :=
  e ← get executor;
  match order_history e with
  | [] => ret []
  | _ =>
      let history := py_slice_from (- limit) (order_history e) in
      if existsb has_price history then ret history
      else raise "KeyError"
  end.

End Collaborators.

End Live.

(** ** backtesting/backtester.py *)

Module Backtester.

Import SignalCombiner.

(** One row of the prepared data frame. *)
Record Bar := {
  bar_timestamp : Z;
  open : Q;
  high : Q;
  low : Q;
  close : Q;
  volume : Q
}.

(** One dictionary of [trade_log]; [trade_amount] is the entry ["cost"]
    of a buy and ["revenue"] of a sell. *)
Record Trade := {
  trade_timestamp : Z;
  trade_type : OrderType;
  trade_size : Q;
  trade_price : Q;
  trade_amount : Q;
  trade_value : Q;
  trade_commission : Q;
  trade_reason : list Reason
}.

(** [self.commission = 0.001] *)
Definition commission : Q := 1 # 1000.

(** The variables of the replay loop: the running position and cash,
    the trade log, and the three series indexed like the data frame. *)
Record Sim := {
  current_position : Q;
  current_cash : Q;
  trade_log : list Trade;
  positions : list Q;
  cash : list Q;
  portfolio_value : list Q
}.

Definition is_buy (t : OrderType) : bool :=
  match t with buy => true | sell => false end.

Definition is_sell (t : OrderType) : bool :=
  match t with sell => true | buy => false end.

(** The trading part of the loop body, lines 181-229: the new position,
    cash and trade log after bar [b]. *)
Definition trade_at (combined : CombinedSignal) (b : Bar)
    (position cash_now : Q) (log : list Trade) : Q * Q * list Trade :=
  if should_trade combined then
    let order_type := determine_order_type (final_signal combined) in
    let current_price := close b in
    let position_size :=
      calculate_position_size (final_signal combined)
        (cash_now + position * current_price) current_price in
    if is_buy order_type
       && Qle_bool (position_size * current_price * (1 + commission)) cash_now
    then
      let cost := position_size * current_price * (1 + commission) in
      (position + position_size, cash_now - cost,
       log ++ [ {| trade_timestamp := bar_timestamp b; trade_type := buy;
                   trade_size := position_size; trade_price := current_price;
                   trade_amount := cost;
                   trade_value := position_size * current_price;
                   trade_commission := cost * commission;
                   trade_reason := reasons combined |} ])
    else if is_sell order_type && Qle_bool position_size position
    then
      let revenue := position_size * current_price * (1 - commission) in
      (position - position_size, cash_now + revenue,
       log ++ [ {| trade_timestamp := bar_timestamp b; trade_type := sell;
                   trade_size := position_size; trade_price := current_price;
                   trade_amount := revenue;
                   trade_value := position_size * current_price;
                   trade_commission := position_size * current_price * commission;
                   trade_reason := reasons combined |} ])
    else (position, cash_now, log)
  else (position, cash_now, log).

(** The body of [for i in range(50, len(df))]; [b] is [df.iloc[i]] and
    [strategy_signals] the signals the enabled strategies produced at
    this bar, each already carrying its strategy name. *)
Definition bar_step (weights : gmap string Q) (signals : nat -> list Signal)
    (s : Sim) (ib : nat * Bar) : Sim :=
  let '(i, b) := ib in
  let strategy_signals := signals i in
  let combined := combine_signals weights strategy_signals in
  let '(position, cash_now, log) :=
    trade_at combined b (current_position s) (current_cash s) (trade_log s) in
  {| current_position := position;
     current_cash := cash_now;
     trade_log := log;
     positions := <[ i := position ]> (positions s);
     cash := <[ i := cash_now ]> (cash s);
     portfolio_value := <[ i := cash_now + position * close b ]> (portfolio_value s) |}.

(** The state before the loop: [pd.Series(0, ...)],
    [pd.Series(initial_capital, ...)] twice, no position, no trade. *)
Definition sim0 (df : list Bar) (initial_capital : Q) : Sim :=
  {| current_position := 0;
     current_cash := initial_capital;
     trade_log := [];
     positions := replicate (length df) 0;
     cash := replicate (length df) initial_capital;
     portfolio_value := replicate (length df) initial_capital |}.

(** The pairs [(i, df.iloc[i])] for [i in range(50, len(df))]. *)
Definition replay_range (df : list Bar) : list (nat * Bar) :=
  zip (seq 50 (length df - 50)) (drop 50 df).

Definition replay (weights : gmap string Q) (signals : nat -> list Signal)
    (df : list Bar) (initial_capital : Q) : Sim :=
  fold_left (bar_step weights signals) (replay_range df) (sim0 df initial_capital).

(** The loop [for i in range(1, len(trade_log))] of the trade
    statistics: [(winning_trades, total_pnl)]. *)
Fixpoint pair_loop (log : list Trade) (winning_trades : nat) (total_pnl : Q)
    : nat * Q :=
  match log with
  | prev :: ((cur :: _) as rest) =>
      if is_sell (trade_type cur) && is_buy (trade_type prev) then
        let buy_price := trade_price prev in
        let sell_price := trade_price cur in
        let pnl := (sell_price - buy_price) / buy_price * 100 in
        pair_loop rest
          (if Qlt_bool 0 pnl then S winning_trades else winning_trades)
          (total_pnl + pnl)
      else pair_loop rest winning_trades total_pnl
  | _ => (winning_trades, total_pnl)
  end.

(** [num_trades // 2] as a rational. *)
Definition half_trades (log : list Trade) : Q :=
  inject_Z (Z.of_nat (length log / 2)).

(** [win_rate] and [avg_return_per_trade], lines 246-265. *)
Definition trade_statistics (log : list Trade) : Q * Q :=
  let num_trades := length log in
  if (0 <? num_trades)%nat then
    let '(winning_trades, total_pnl) := pair_loop log O 0 in
    (if (1 <? num_trades)%nat
     then (inject_Z (Z.of_nat winning_trades) / half_trades log) * 100
     else 0,
     if (1 <? num_trades)%nat then total_pnl / half_trades log else 0)
  else (0, 0).

(** The dictionary [run_backtest] returns.  [annualized_return] (a
    fractional power), [sharpe_ratio] (a square root and a standard
    deviation) and the series derived for them are not rational
    functions of the inputs and are left out.  [total_return] divides by
    [initial_capital]; for a zero capital numpy yields [inf] or [nan],
    where [Qdiv] yields 0. *)
Record Results := {
  initial_capital_used : Q;
  final_value : Q;
  total_return : Q;
  win_rate : Q;
  avg_return_per_trade : Q;
  num_trades : nat;
  res_positions : list Q;
  res_cash : list Q;
  res_portfolio_value : list Q;
  res_trade_log : list Trade
}.

(** [Backtester.run_backtest] on the data frame
    [_prepare_historical_data] returned. *)
Definition run_backtest (weights : gmap string Q) (signals : nat -> list Signal)
    (df : list Bar) (initial_capital : Q) : outcome Results :=
  if (length df <? 50)%nat then Raises "ValueError"
  else
    let s := replay weights signals df initial_capital in
    let final := List.last (portfolio_value s) initial_capital in
    let '(wr, avg) := trade_statistics (trade_log s) in
    Returns
      {| initial_capital_used := initial_capital;
         final_value := final;
         total_return := (final / initial_capital - 1) * 100;
         win_rate := wr;
         avg_return_per_trade := avg;
         num_trades := length (trade_log s);
         res_positions := positions s;
         res_cash := cash s;
         res_portfolio_value := portfolio_value s;
         res_trade_log := trade_log s |}.

(** Cash and position are non-negative, now and at every bar recorded
    so far. *)
Definition solvent (s : Sim) : Prop :=
  0 <= current_position s
  /\ 0 <= current_cash s
  /\ Forall (fun q => 0 <= q) (positions s)
  /\ Forall (fun q => 0 <= q) (cash s).

(** What [trade_at] did at a bar, from the position, cash and log before
    ([position], [cash_now], [log]) to those after: nothing, a buy whose
    full cost the cash covered, or a sell whose full size the position
    covered. *)
Definition covered_step (b : Bar) (position cash_now : Q) (log : list Trade)
    (after : Q * Q * list Trade) : Prop :=
  let '(position', cash', log') := after in
  (position' = position /\ cash' = cash_now /\ log' = log)
  \/ (exists t, log' = log ++ [t]
        /\ trade_type t = buy
        /\ trade_amount t = trade_size t * close b * (1 + commission)
        /\ trade_amount t <= cash_now
        /\ position' = position + trade_size t
        /\ cash' = cash_now - trade_amount t)
  \/ (exists t, log' = log ++ [t]
        /\ trade_type t = sell
        /\ trade_amount t = trade_size t * close b * (1 - commission)
        /\ trade_size t <= position
        /\ position' = position - trade_size t
        /\ cash' = cash_now + trade_amount t).

(** *** The trade statistics as the specification words them

    Round trips are the adjacent buy-then-sell entries of the trade
    log; the win rate is the share of round trips whose sell price
    exceeds the buy price and the average return the mean percentage
    gain over the round trips. *)

Fixpoint round_trips (log : list Trade) : list (Trade * Trade) :=
  match log with
  | prev :: ((cur :: _) as rest) =>
      if is_buy (trade_type prev) && is_sell (trade_type cur)
      then (prev, cur) :: round_trips rest
      else round_trips rest
  | _ => []
  end.

Definition gain_percent (p : Trade * Trade) : Q :=
  (trade_price (snd p) - trade_price (fst p)) / trade_price (fst p) * 100.

Definition is_win (p : Trade * Trade) : bool :=
  Qlt_bool (trade_price (fst p)) (trade_price (snd p)).

Definition Qsum (l : list Q) : Q := fold_right Qplus 0 l.

(** Share of winning round trips, as a percentage like the report. *)
Definition spec_win_rate (log : list Trade) : Q :=
  let pairs := round_trips log in
  match pairs with
  | [] => 0
  | _ => Qlen (filter (fun p => is_win p = true) pairs) / Qlen pairs * 100
  end.

(** Mean percentage gain over the round trips. *)
Definition spec_avg_return (log : list Trade) : Q :=
  let pairs := round_trips log in
  match pairs with
  | [] => 0
  | _ => Qsum (map gain_percent pairs) / Qlen pairs
  end.

(** A trade log that strictly alternates, starting with a buy. *)
Fixpoint alternating (log : list Trade) : Prop :=
  match log with
  | [] => True
  | [b] => trade_type b = buy
  | b :: s :: rest =>
      trade_type b = buy /\ trade_type s = sell /\ alternating rest
  end.

(** *** The market view of the replay and the drawdown *)

(** One row of [get_candlesticks]: [[open, high, low, close, volume]]. *)
Definition ohlcv (b : Bar) : list Q := [open b; high b; low b; close b; volume b].

(** [MockMarketData.get_candlesticks] for the mock built at bar [idx]:
    the rows [df.iloc[start_idx : idx + 1]] with
    [start_idx = max(0, idx - limit + 1)]. *)
Definition mock_get_candlesticks (df : list Bar) (idx : nat) (limit : Z)
    : list (list Q) :=
  let start_idx := Z.to_nat (Z.max 0 (Z.of_nat idx - limit + 1)) in
  map ohlcv (take (idx + 1 - start_idx) (drop start_idx df)).

(** [MockMarketData.get_current_price]: [df['close'].iloc[idx]], an
    [IndexError] past the end of the frame. *)
Definition mock_get_current_price (df : list Bar) (idx : nat) : outcome Q :=
  match df !! idx with
  | Some b => Returns (close b)
  | None => Raises "IndexError"
  end.

(** [portfolio_value.cummax()]: the running maximum, [m] being the
    maximum of the values before. *)
Fixpoint cummax_from (m : Q) (values : list Q) : list Q :=
  match values with
  | [] => []
  | v :: rest =>
      let m' := if Qlt_bool m v then v else m in
      m' :: cummax_from m' rest
  end.

Definition cummax (values : list Q) : list Q :=
  match values with
  | [] => []
  | v :: rest => v :: cummax_from v rest
  end.

(** [drawdown = portfolio_value / portfolio_value.cummax() - 1] *)
Definition drawdown (values : list Q) : list Q :=
  zip_with (fun v m => v / m - 1) values (cummax values).

(** The minimum of a series that starts with [x]. *)
Definition series_min (x : Q) (rest : list Q) : Q :=
  fold_left (fun m v => if Qlt_bool v m then v else m) rest x.

(** [max_drawdown = drawdown.min() * 100]; [None] for the empty series,
    whose minimum is not a number. *)
Definition max_drawdown (values : list Q) : option Q :=
  match drawdown values with
  | [] => None
  | d :: rest => Some (series_min d rest * 100)
  end.

(** The fee a trade was charged: what a buy cost above the value bought,
    what a sell yielded below the value sold. *)
Definition fee_charged (t : Trade) : Q :=
  match trade_type t with
  | buy => trade_amount t - trade_value t
  | sell => trade_value t - trade_amount t
  end.

End Backtester.

(** ** core/config_manager.py *)

Module ConfigManager.

(** The values of a strategy's parameter dictionary: the ["enabled"]
    flag and the numeric parameters. *)
Inductive Value := VBool (b : bool) | VNum (q : Q).

(** Truth value of a parameter, as [if] and [and] take it. *)
Definition truthy (v : Value) : bool :=
  match v with VBool b => b | VNum q => negb (Qeq_bool q 0) end.

(** The configuration dictionary, with the three sections every
    configuration written by [_load_config] has. *)
Record Config := {
  active_strategies : list string;
  strategy_params : gmap string (gmap string Value);
  risk_management : gmap string Q
}.

(** The manager: the dictionary in memory and the one last written to
    the configuration file by [_save_config] (writing is taken to
    succeed). *)
Record Manager := {
  config : Config;
  saved : Config
}.

(** [ConfigManager.get_strategy_config] *)
Definition get_strategy_config (m : Manager) (strategy_name : string)
    : gmap string Value :=
  default ∅ (strategy_params (config m) !! strategy_name).

(** [ConfigManager.is_strategy_enabled]: [name in active_strategies and
    strategy_params[name]["enabled"]].  The right operand is evaluated
    only for an active name and raises [KeyError] on a missing key; the
    result is the value of the operand that decided. *)
Definition is_strategy_enabled (m : Manager) (strategy_name : string)
    : outcome Value :=
  if bool_decide (strategy_name ∈ active_strategies (config m)) then
    match strategy_params (config m) !! strategy_name with
    | None => Raises "KeyError"
    | Some params =>
        match params !! "enabled"%string with
        | None => Raises "KeyError"
        | Some v => Returns v
        end
    end
  else Returns (VBool false).

(** [list.remove(x)]: the first occurrence goes. *)
Fixpoint remove_first (x : string) (l : list string) : list string :=
  match l with
  | [] => []
  | y :: l' => if bool_decide (y = x) then l' else y :: remove_first x l'
  end.

(** [ConfigManager.update_strategy_status].  The file is written only
    when the strategy has a parameter dictionary. *)
Definition update_strategy_status (strategy_name : string) (enabled : bool)
    (m : Manager) : Manager :=
  let c := config m in
  let active :=
    if enabled && negb (bool_decide (strategy_name ∈ active_strategies c))
    then active_strategies c ++ [strategy_name]
    else if negb enabled && bool_decide (strategy_name ∈ active_strategies c)
    then remove_first strategy_name (active_strategies c)
    else active_strategies c in
  match strategy_params c !! strategy_name with
  | Some params =>
      let c' := {| active_strategies := active;
                   strategy_params :=
                     <[ strategy_name :=
                          <[ "enabled"%string := VBool enabled ]> params ]>
                       (strategy_params c);
                   risk_management := risk_management c |} in
      {| config := c'; saved := c' |}
  | None =>
      {| config := {| active_strategies := active;
                      strategy_params := strategy_params c;
                      risk_management := risk_management c |};
         saved := saved m |}
  end.

(** [ConfigManager.update_strategy_params]: [dict.update], the new
    entries winning. *)
Definition update_strategy_params (strategy_name : string)
    (params : gmap string Value) (m : Manager) : Manager :=
  let c := config m in
  match strategy_params c !! strategy_name with
  | Some old =>
      let c' := {| active_strategies := active_strategies c;
                   strategy_params :=
                     <[ strategy_name := params ∪ old ]> (strategy_params c);
                   risk_management := risk_management c |} in
      {| config := c'; saved := c' |}
  | None => m
  end.

(** [ConfigManager.update_risk_params] *)
Definition update_risk_params (params : gmap string Q) (m : Manager) : Manager :=
  let c := config m in
  let c' := {| active_strategies := active_strategies c;
               strategy_params := strategy_params c;
               risk_management := params ∪ risk_management c |} in
  {| config := c'; saved := c' |}.

(** [ConfigManager.get_risk_params]: a copy of the section. *)
Definition get_risk_params (m : Manager) : gmap string Q :=
  risk_management (config m).

End ConfigManager.

(** ** data/market_data.py: the price cache *)

Module PriceFeed.

(** [MarketData.price_cache] *)
Record PriceCache := {
  cached_price : Q;
  cached_at : Q
}.

(** The cache [MarketData.__init__] sets up. *)
Definition empty_cache : PriceCache := {| cached_price := 0; cached_at := 0 |}.

(** What one call did: its outcome, the cache it leaves, and whether it
    sent a request to the exchange. *)
Record Served := {
  answer : outcome Q;
  cache_after : PriceCache;
  requested : bool
}.

(** [MarketData.get_current_price].  [current_time] is the reading of
    [time.time()] at the start of the call and [fetch] the outcome of the
    [try] block up to the parsed price: the price, or the exception of
    the request or of the parsing. *)
Definition get_current_price (cache : PriceCache) (current_time : Q)
    (fetch : outcome Q) : Served :=
  if Qlt_bool (current_time - cached_at cache) 5
     && Qlt_bool 0 (cached_price cache)
  then {| answer := Returns (cached_price cache); cache_after := cache;
          requested := false |}
  else
    match fetch with
    | Returns price =>
        {| answer := Returns price;
           cache_after := {| cached_price := price; cached_at := current_time |};
           requested := true |}
    | Raises e =>
        if Qlt_bool 0 (cached_price cache)
           && Qlt_bool (current_time - cached_at cache) 300
        then {| answer := Returns (cached_price cache); cache_after := cache;
                requested := true |}
        else {| answer := Raises e; cache_after := cache; requested := true |}
    end.

End PriceFeed.

(** ** Concrete sessions *)

Module Scenario.

Import SignalCombiner Live Backtester.

(** A bar that opened, traded and closed at one price. *)
Definition flat_bar (p : Q) : Bar :=
  {| bar_timestamp := 0; open := p; high := p; low := p; close := p;
     volume := 0 |}.

(** 54 bars: the price is 1 up to bar 52 and 2 at bar 53. *)
Definition pyramiding_prices : list Bar :=
  replicate 53 (flat_bar 1) ++ [flat_bar 2].

(** One producer, certain and bullish up to bar 52, certain and bearish
    at bar 53: the replay buys at bars 50, 51 and 52 and sells at 53. *)
Definition pyramiding_signals (i : nat) : list Signal :=
  if (i <? 53)%nat then [confident "bollinger" 1]
  else [confident "bollinger" (-1)].

(** Counters at zero, nothing submitted; the constructors fill in the
    two objects. *)
Definition blank : State :=
  {| risk_manager :=
       {| daily_pnl := 0; daily_loss := 0; daily_reset_time := 0;
          initial_balance := 0; last_balance := 0;
          max_daily_loss_reached := false |};
     executor := {| last_order_time := 0; min_order_interval := 0;
                    order_history := [] |};
     n_time := 0; n_balance := 0; n_price := 0; placed := [] |}.

(** The clock reads 1000 for its first [k] readings and 1010 from then
    on.  With [k] the number of readings the constructors and a first
    [execute_order] make, a second [execute_order] comes 10 seconds after
    the first. *)
Definition ten_seconds_apart (k n : nat) : Q :=
  if (n <? k)%nat then 1000 else 1010.

(** An account of 1000 USDT and no DOGE, at a price of 0.1. *)
Definition steady_account (n : nat) (ccy : Currency) : outcome Q :=
  match ccy with DOGE => Returns 0 | USDT => Returns 1000 end.

(** The exchange is unreachable: [place_order] raises.  The constructors
    and the first [execute_order] read the clock four times. *)
Definition exchange_down : Oracle :=
  {| time_time := ten_seconds_apart 4;
     account_balance := steady_account;
     current_price := fun _ => Returns (1 # 10);
     exchange := fun _ _ => Raises "timeout" |}.

(** The exchange answers with an error code: [place_order] returns a
    failure result.  The constructors and the first [execute_order] read
    the clock six times. *)
Definition exchange_refusing : Oracle :=
  {| time_time := ten_seconds_apart 6;
     account_balance := steady_account;
     current_price := fun _ => Returns (1 # 10);
     exchange := fun _ _ =>
       Returns {| code := Some "51008"%string;
                  msg := Some "insufficient balance"%string;
                  data := None |} |}.

(** The USDT balance is 100 when the session starts, 98 at the first
    [update_metrics] and 96 from the second on (each balance computation
    makes two balance queries); no DOGE, price 1, clock at 0. *)
Definition sliding_account : Oracle :=
  {| time_time := fun _ => 0;
     account_balance := fun n ccy =>
       match ccy with
       | DOGE => Returns 0
       | USDT => Returns (if (n <? 2)%nat then 100
                          else if (n <? 4)%nat then 98 else 96)
       end;
     current_price := fun _ => Returns 1;
     exchange := fun _ _ => Raises "unused" |}.

(** The USDT balance is 100 when the session starts, 110 at the first
    [update_metrics] and 106 from the second on. *)
Definition rebounding_account : Oracle :=
  {| time_time := fun _ => 0;
     account_balance := fun n ccy =>
       match ccy with
       | DOGE => Returns 0
       | USDT => Returns (if (n <? 2)%nat then 100
                          else if (n <? 4)%nat then 110 else 106)
       end;
     current_price := fun _ => Returns 1;
     exchange := fun _ _ => Raises "unused" |}.

(** A state in which the last order was placed at 1000, under a clock
    that stands at 1010. *)
Definition standing_clock : Oracle :=
  {| time_time := fun _ => 1010;
     account_balance := steady_account;
     current_price := fun _ => Returns (1 # 10);
     exchange := fun _ _ => Raises "unused" |}.

Definition just_traded : State :=
  {| risk_manager :=
       {| daily_pnl := 0; daily_loss := 0; daily_reset_time := 0;
          initial_balance := 1000; last_balance := 1000;
          max_daily_loss_reached := false |};
     executor := {| last_order_time := 1000; min_order_interval := 60;
                    order_history := [] |};
     n_time := 0; n_balance := 0; n_price := 0; placed := [] |}.

(** The executor is ready to trade: no order placed yet, an account of
    1000 USDT at the start of the window. *)
Definition ready : State :=
  {| risk_manager :=
       {| daily_pnl := 0; daily_loss := 0; daily_reset_time := 0;
          initial_balance := 1000; last_balance := 1000;
          max_daily_loss_reached := false |};
     executor := {| last_order_time := 0; min_order_interval := 60;
                    order_history := [] |};
     n_time := 0; n_balance := 0; n_price := 0; placed := [] |}.

(** The clock reads 1059 while [_can_place_order] decides (twice, the
    second reading for the log) and 1061 from then on: the throttle
    interval of 60 seconds after an order at 1000 ends between the
    decision and the report. *)
Definition clock_crossing : Oracle :=
  {| time_time := fun n => if (n <? 2)%nat then 1059 else 1061;
     account_balance := steady_account;
     current_price := fun _ => Returns (1 # 10);
     exchange := fun _ _ => Raises "unused" |}.

(** The USDT balance is 960 at the first computation of the account
    value (two balance queries) and 1000 from then on; no DOGE; the
    clock stands at 1010. *)
Definition recovering_account : Oracle :=
  {| time_time := fun _ => 1010;
     account_balance := fun n ccy =>
       match ccy with
       | DOGE => Returns 0
       | USDT => Returns (if (n <? 2)%nat then 960 else 1000)
       end;
     current_price := fun _ => Returns (1 # 10);
     exchange := fun _ _ => Raises "unused" |}.

(** The exchange accepts every order under the identifier ["4711"]. *)
Definition exchange_accepting : Oracle :=
  {| time_time := fun _ => 1010;
     account_balance := steady_account;
     current_price := fun _ => Returns (1 # 10);
     exchange := fun _ _ =>
       Returns {| code := Some "0"%string; msg := None;
                  data := Some [Some "4711"%string] |} |}.

(** The exchange accepts every order but answers with an empty [data]
    list. *)
Definition exchange_accepting_silently : Oracle :=
  {| time_time := fun _ => 1010;
     account_balance := steady_account;
     current_price := fun _ => Returns (1 # 10);
     exchange := fun _ _ =>
       Returns {| code := Some "0"%string; msg := None; data := Some [] |} |}.

(** Every query to the exchange raises. *)
Definition outage : Oracle :=
  {| time_time := fun _ => 1010;
     account_balance := fun _ _ => Raises "offline";
     current_price := fun _ => Raises "offline";
     exchange := fun _ _ => Raises "offline" |}.

(** A successful and a failed record. *)
Definition filled_order : Order :=
  {| timestamp := 1010; type := "buy"; size := 100; price := Some (1 # 10);
     order_id := "4711"; status := success; execution_time := Some 0;
     order_error := None |}.

Definition failed_order : Order :=
  {| timestamp := 1010; type := "buy"; size := 100; price := None;
     order_id := "failed"; status := failed; execution_time := None;
     order_error := Some "insufficient balance"%string |}.

(** [ready] with a given ledger. *)
Definition with_ledger (h : list Order) : State :=
  set_executor (set_order_history h (executor ready)) ready.

(** One producer that abstains at every bar. *)
Definition abstaining_signals (i : nat) : list Signal := [silent "bollinger" 1].

(** A manager whose file is up to date, with one configured and active
    strategy. *)
Definition sample_config : ConfigManager.Config :=
  {| ConfigManager.active_strategies := ["bollinger"%string];
     ConfigManager.strategy_params :=
       {[ "bollinger"%string :=
            {[ "enabled"%string := ConfigManager.VBool true;
               "period"%string := ConfigManager.VNum 20 ]} ]};
     ConfigManager.risk_management :=
       {[ "max_daily_loss"%string := 3; "max_position_percent"%string := 5 ]} |}.

Definition sample_manager : ConfigManager.Manager :=
  {| ConfigManager.config := sample_config;
     ConfigManager.saved := sample_config |}.

End Scenario.

(** * Properties *)

(** ** Comparisons and clamps *)

Lemma Qlt_bool_iff (x y : Q) : Qlt_bool x y = true <-> x < y.
Proof.
  unfold Qlt_bool. rewrite negb_true_iff.
  split.
  - intros H. apply Qnot_le_lt. intros Hle.
    apply Qle_bool_iff in Hle. congruence.
  - intros H. destruct (Qle_bool y x) eqn:E; [|reflexivity].
    apply Qle_bool_iff in E. exfalso. apply (Qlt_not_le _ _ H E).
Qed.

Lemma Qlt_bool_false_iff (x y : Q) : Qlt_bool x y = false <-> y <= x.
Proof.
  unfold Qlt_bool. rewrite negb_false_iff. apply Qle_bool_iff.
Qed.

Lemma Qle_bool_false_iff (x y : Q) : Qle_bool x y = false <-> y < x.
Proof.
  rewrite <- Qlt_bool_iff. unfold Qlt_bool.
  destruct (Qle_bool x y); simpl; split; congruence.
Qed.

(** Case analysis on a boolean comparison of rationals, leaving the
    ordering fact among the hypotheses. *)
Ltac case_Qlt x y :=
  let E := fresh "Hcmp" in
  destruct (Qlt_bool x y) eqn:E;
  [apply Qlt_bool_iff in E | apply Qlt_bool_false_iff in E].

Ltac case_Qle x y :=
  let E := fresh "Hcmp" in
  destruct (Qle_bool x y) eqn:E;
  [apply Qle_bool_iff in E | apply Qle_bool_false_iff in E].

Lemma py_min_le_l (a b : Q) : py_min a b <= a.
Proof. unfold py_min. case_Qlt b a; lra. Qed.

Lemma py_min_le_r (a b : Q) : py_min a b <= b.
Proof. unfold py_min. case_Qlt b a; lra. Qed.

Lemma py_min_glb (a b c : Q) : c <= a -> c <= b -> c <= py_min a b.
Proof. unfold py_min. case_Qlt b a; lra. Qed.

Lemma py_max_ge_l (a b : Q) : a <= py_max a b.
Proof. unfold py_max. case_Qlt a b; lra. Qed.

Lemma py_max_ge_r (a b : Q) : b <= py_max a b.
Proof. unfold py_max. case_Qlt a b; lra. Qed.

Lemma py_max_lub (a b c : Q) : a <= c -> b <= c -> py_max a b <= c.
Proof. unfold py_max. case_Qlt a b; lra. Qed.

Lemma py_max_mono_r (a b b' : Q) : b <= b' -> py_max a b <= py_max a b'.
Proof.
  intros H. apply py_max_lub.
  - apply py_max_ge_l.
  - eapply Qle_trans; [exact H | apply py_max_ge_r].
Qed.

Lemma py_min_mono_r (a b b' : Q) : b <= b' -> py_min a b <= py_min a b'.
Proof.
  intros H. apply py_min_glb.
  - apply py_min_le_l.
  - eapply Qle_trans; [apply py_min_le_r | exact H].
Qed.

(** ** Signal aggregation *)

Section AggregatorFacts.

Import SignalCombiner.

Variable weights : gmap string Q.

(** The numerator of the confidence and the denominator are the same
    number: both start at 0 and both receive [confidence * weight]. *)
Lemma combine_step_same_sums n a s :
  total_confidence a = total_weight a ->
  total_confidence (combine_step weights n a s)
  = total_weight (combine_step weights n a s).
Proof.
  intros H. unfold combine_step.
  destruct (Qlt_bool 0 (default 0 (confidence s))); simpl; congruence.
Qed.

Lemma fold_same_sums n sigs a :
  total_confidence a = total_weight a ->
  total_confidence (fold_left (combine_step weights n) sigs a)
  = total_weight (fold_left (combine_step weights n) sigs a).
Proof.
  revert a. induction sigs as [|s sigs IH]; intros a H; simpl; [exact H|].
  apply IH. now apply combine_step_same_sums.
Qed.

Lemma combine_loop_same_sums sigs :
  total_confidence (combine_loop weights sigs)
  = total_weight (combine_loop weights sigs).
Proof. apply fold_same_sums. reflexivity. Qed.

(** The combined confidence is decided by the sign of the denominator. *)
Lemma combined_confidence_cases sigs :
  (0 < total_weight (combine_loop weights sigs)
   /\ combined_confidence (combine_signals weights sigs) = 1)
  \/ (total_weight (combine_loop weights sigs) <= 0
      /\ combined_confidence (combine_signals weights sigs) = 0).
Proof.
  unfold combine_signals. cbn [combined_confidence].
  rewrite combine_loop_same_sums.
  set (tw := total_weight (combine_loop weights sigs)).
  case_Qlt 0 tw.
  - left. split; [assumption|].
    assert (Hone : tw / tw == 1) by (field; lra).
    unfold py_min.
    case_Qlt (tw / tw) 1; [lra|]. reflexivity.
  - right. split; [assumption|]. reflexivity.
Qed.

(** Signals without confidence leave the accumulators untouched. *)
Lemma fold_zero_confidence n sigs a :
  Forall (fun s => confidence_read s == 0) sigs ->
  fold_left (combine_step weights n) sigs a = a.
Proof.
  revert a. induction sigs as [|s sigs IH]; intros a H; simpl; [reflexivity|].
  inversion H as [|? ? Hs Hrest]; subst.
  unfold combine_step at 2. fold (confidence_read s).
  case_Qlt 0 (confidence_read s); [lra|]. now apply IH.
Qed.

(** C5.  When every signal has confidence 0, and more generally when
    the accumulated denominator [total_weight] is 0, [combine_signals]
    returns [final_signal = 0] and [confidence = 0]. *)
Theorem combine_signals_without_confidence sigs :
  Forall (fun s => confidence_read s == 0) sigs
  \/ total_weight (combine_loop weights sigs) == 0 ->
  final_signal (combine_signals weights sigs) = 0
  /\ combined_confidence (combine_signals weights sigs) = 0.
Proof.
  intros H.
  assert (Hden : total_weight (combine_loop weights sigs) == 0).
  { destruct H as [H|H]; [|exact H].
    unfold combine_loop. rewrite fold_zero_confidence by exact H.
    reflexivity. }
  unfold combine_signals. cbn [final_signal combined_confidence].
  case_Qlt 0 (total_weight (combine_loop weights sigs)); [lra|].
  split; reflexivity.
Qed.

(** C9, as amended.  The numerator and the denominator of the combined
    confidence accumulate the identical quantity [confidence * weight].
    So whenever the denominator [combine_signals] has computed,
    [total_weight], is strictly positive, the confidence it returns is
    exactly 1, the clamp changing nothing; and whatever the signals and
    the weights, the confidence is 1 with a positive denominator and 0
    otherwise, never strictly between. *)
Theorem combined_confidence_is_one sigs :
  0 < total_weight (combine_loop weights sigs) ->
  total_confidence (combine_loop weights sigs)
  = total_weight (combine_loop weights sigs)
  /\ combined_confidence (combine_signals weights sigs) = 1
  /\ (forall sigs',
        (0 < total_weight (combine_loop weights sigs')
         /\ combined_confidence (combine_signals weights sigs') = 1)
        \/ (total_weight (combine_loop weights sigs') <= 0
            /\ combined_confidence (combine_signals weights sigs') = 0)).
Proof.
  intros Hpos. split; [apply combine_loop_same_sums|]. split.
  - destruct (combined_confidence_cases sigs) as [[_ H]|[Hle _]]; [exact H|].
    lra.
  - intros sigs'. apply combined_confidence_cases.
Qed.

End AggregatorFacts.

(** ** Position sizing *)

Section SizingFacts.

Import SignalCombiner.

Lemma signal_factor_bounds sig : 5 # 10 <= signal_factor sig /\ signal_factor sig <= 3.
Proof.
  unfold signal_factor. split.
  - apply py_min_glb; [lra | apply py_max_ge_l].
  - apply py_min_le_l.
Qed.

Lemma signal_factor_mono s1 s2 :
  Qabs s1 <= Qabs s2 -> signal_factor s1 <= signal_factor s2.
Proof.
  intros H. unfold signal_factor.
  apply py_min_mono_r, py_max_mono_r. lra.
Qed.

Lemma calculate_position_size_eq sig account_value current_price :
  calculate_position_size sig account_value current_price
  = account_value * (1 # 100) * signal_factor sig / current_price.
Proof. reflexivity. Qed.

Lemma Qdiv_le_compat_pos a b c : 0 < c -> a <= b -> a / c <= b / c.
Proof.
  intros Hc Hab. unfold Qdiv. apply Qmult_le_compat_r; [exact Hab|].
  apply Qlt_le_weak, Qinv_lt_0_compat, Hc.
Qed.

(** C6.  For a fixed account value (non-negative) and a fixed current
    price (positive), [calculate_position_size] is monotonically
    non-decreasing in [abs(signal)], and the size lies between 0.5% and
    3% of the account value divided by the price; equivalently
    [size * price] lies between 0.005 and 0.03 times the account
    value. *)
Theorem calculate_position_size_monotone_bounded account_value current_price :
  0 <= account_value -> 0 < current_price ->
  (forall s1 s2, Qabs s1 <= Qabs s2 ->
     calculate_position_size s1 account_value current_price
     <= calculate_position_size s2 account_value current_price)
  /\ (forall sig,
        (5 # 1000) * account_value / current_price
        <= calculate_position_size sig account_value current_price
        /\ calculate_position_size sig account_value current_price
           <= (3 # 100) * account_value / current_price
        /\ (5 # 1000) * account_value
           <= calculate_position_size sig account_value current_price * current_price
        /\ calculate_position_size sig account_value current_price * current_price
           <= (3 # 100) * account_value).
Proof.
  intros Hav Hp. split.
  - intros s1 s2 H. rewrite !calculate_position_size_eq.
    apply Qdiv_le_compat_pos; [exact Hp|].
    pose proof (signal_factor_mono s1 s2 H). nra.
  - intros sig. rewrite !calculate_position_size_eq.
    destruct (signal_factor_bounds sig) as [Hlo Hhi].
    assert (Hl : (5 # 1000) * account_value
                 <= account_value * (1 # 100) * signal_factor sig) by nra.
    assert (Hh : account_value * (1 # 100) * signal_factor sig
                 <= (3 # 100) * account_value) by nra.
    assert (Hcancel : account_value * (1 # 100) * signal_factor sig
                        / current_price * current_price
                      == account_value * (1 # 100) * signal_factor sig)
      by (field; lra).
    repeat split.
    + apply Qdiv_le_compat_pos; assumption.
    + apply Qdiv_le_compat_pos; assumption.
    + rewrite Hcancel. exact Hl.
    + rewrite Hcancel. exact Hh.
Qed.

End SizingFacts.

(** *** Concrete signal sets *)

Section AggregatorExamples.

Import SignalCombiner.

(** A single signal of value 0.8, confidence 1 and weight 1 combines to
    0.8. *)
Example combine_single_signal :
  final_signal (combine_signals {[ "bollinger"%string := 1 ]}
                                [confident "bollinger" (8 # 10)]) == 8 # 10.
Proof. vm_compute. reflexivity. Qed.

Lemma combine_signals_without_confidence_witness :
  Forall (fun s => confidence_read s == 0)
         [silent "bollinger" (8 # 10); silent "breakout" (-1)]
  /\ final_signal (combine_signals ∅
                     [silent "bollinger" (8 # 10); silent "breakout" (-1)]) = 0
  /\ combined_confidence (combine_signals ∅
                     [silent "bollinger" (8 # 10); silent "breakout" (-1)]) = 0.
Proof.
  assert (H : Forall (fun s => confidence_read s == 0)
                     [silent "bollinger" (8 # 10); silent "breakout" (-1)])
    by (repeat constructor).
  split; [exact H|].
  apply (combine_signals_without_confidence ∅
           [silent "bollinger" (8 # 10); silent "breakout" (-1)]).
  left. exact H.
Defined.

(** C9 as stated fails when a configured weight is negative: the
    bollinger signal has confidence 1 and weight 1, but the breakout
    signal, confidence 1 and weight -2, makes the denominator -1, and
    the combined confidence is 0. *)
Lemma combined_confidence_negative_weight :
  let weights : gmap string Q :=
    <[ "bollinger"%string := 1 ]> (<[ "breakout"%string := -2 ]> ∅) in
  let sigs := [confident "bollinger" 1; confident "breakout" 1] in
  Exists (fun s => 0 < confidence_read s
                   /\ 0 < weight_read weights (length sigs) s) sigs
  /\ combined_confidence (combine_signals weights sigs) = 0
  /\ combined_confidence (combine_signals weights sigs) <> 1.
Proof.
  cbv zeta. split; [|split].
  - apply Exists_cons_hd. split; vm_compute; reflexivity.
  - vm_compute. reflexivity.
  - vm_compute. discriminate.
Qed.

Lemma combined_confidence_is_one_witness :
  combined_confidence
    (combine_signals {[ "bollinger"%string := 1 # 2 ]}
       [confident "bollinger" 1; confident "breakout" (-1); silent "twitter" 1])
  = 1.
Proof.
  destruct (combined_confidence_is_one {[ "bollinger"%string := 1 # 2 ]}
              [confident "bollinger" 1; confident "breakout" (-1);
               silent "twitter" 1])
    as (_ & Hone & _).
  - vm_compute. reflexivity.
  - exact Hone.
Defined.

End AggregatorExamples.

Lemma calculate_position_size_monotone_bounded_witness :
  SignalCombiner.calculate_position_size (4 # 10) 1000 (1 # 10)
  <= SignalCombiner.calculate_position_size (- (9 # 10)) 1000 (1 # 10)
  /\ (5 # 1000) * 1000 / (1 # 10)
     <= SignalCombiner.calculate_position_size (- (9 # 10)) 1000 (1 # 10)
  /\ SignalCombiner.calculate_position_size (- (9 # 10)) 1000 (1 # 10)
     <= (3 # 100) * 1000 / (1 # 10).
Proof.
  destruct (calculate_position_size_monotone_bounded 1000 (1 # 10))
    as [Hmono Hbound].
  - vm_compute. discriminate.
  - vm_compute. reflexivity.
  - split.
    + apply Hmono. vm_compute. discriminate.
    + destruct (Hbound (- (9 # 10))) as (H1 & H2 & _). split; assumption.
Defined.

(** ** Risk governance and order execution *)

Section LiveFacts.

Import Live.

Variable O : Oracle.
Variable risk_params : gmap string Q.

(** Unfold the monad of [Live] one layer at a time. *)
Ltac unfold_monad :=
  unfold mbind, M_bind, mret, M_ret, get, modify, raise, try_except, now,
    get_account_balance, get_current_price, place_order in *.

(** [_get_current_balance] never raises, returns [account_value_at] and
    touches neither object. *)
Lemma _get_current_balance_spec s :
  exists s', _get_current_balance O s = (Returns (account_value_at O s), s')
             /\ same_objects s s'.
Proof.
  unfold _get_current_balance, _get_current_balance_or, account_value_at,
    same_objects.
  unfold_monad.
  destruct (account_balance O (n_balance s) DOGE); simpl;
    [destruct (account_balance O (S (n_balance s)) USDT); simpl;
       [destruct (current_price O (n_price s)); simpl|]|];
    eexists; (split; [reflexivity|]); simpl; repeat split; lia.
Qed.

Lemma bind_returns {A B} (m : M A) (k : A -> M B) s a s' :
  m s = (Returns a, s') -> (m ≫= k) s = k a s'.
Proof. intros H. unfold mbind, M_bind. now rewrite H. Qed.

Lemma bind_raises {A B} (m : M A) (k : A -> M B) s e s' :
  m s = (Raises e, s') -> (m ≫= k) s = (Raises e, s').
Proof. intros H. unfold mbind, M_bind. now rewrite H. Qed.

Lemma set_flag_same r : set_flag (max_daily_loss_reached r) r = r.
Proof. now destruct r. Qed.

(** [should_stop_trading] never raises; it returns the halt condition
    on the balance it reads, and when the window started with a positive
    balance it leaves [max_daily_loss_reached] equal to that verdict. *)
Lemma should_stop_trading_spec s :
  exists s',
    should_stop_trading O risk_params s = (Returns (halted O risk_params s), s')
    /\ risk_manager s'
       = (if Qle_bool (initial_balance (risk_manager s)) 0
          then risk_manager s
          else set_flag (halted O risk_params s) (risk_manager s))
    /\ executor s' = executor s
    /\ placed s' = placed s
    /\ n_time s' = n_time s
    /\ (n_balance s <= n_balance s')%nat
    /\ (n_price s <= n_price s')%nat.
Proof.
  destruct (_get_current_balance_spec s) as (s1 & Hrun & Hrm & Hex & Hpl & Ht & Hb & Hp).
  unfold should_stop_trading.
  rewrite (bind_returns _ _ _ _ _ Hrun).
  unfold halted, halt_condition, loss_ratio_percent.
  unfold_monad. rewrite Hrm.
  destruct (Qle_bool (initial_balance (risk_manager s)) 0) eqn:Hib; simpl.
  - exists s1. repeat split; assumption.
  - set (stop := Qle_bool _ _).
    destruct stop; simpl.
    + destruct (max_daily_loss_reached (risk_manager s)) eqn:Hflag; simpl.
      * exists s1. repeat split; try assumption.
        rewrite Hrm, <- Hflag. symmetry. apply set_flag_same.
      * eexists. split; [reflexivity|]. simpl. rewrite Hrm.
        repeat split; assumption.
    + eexists. split; [reflexivity|]. simpl. rewrite Hrm.
      repeat split; assumption.
Qed.

(** The verdict of [should_stop_trading] is true exactly when the window
    started with a positive balance and the rolling loss ratio has
    reached the limit. *)
Lemma halted_iff s :
  halted O risk_params s = true
  <-> 0 < initial_balance (risk_manager s)
      /\ default 3 (risk_params !! "max_daily_loss"%string)
         <= loss_ratio_percent (risk_manager s) (account_value_at O s).
Proof.
  unfold halted, halt_condition.
  rewrite andb_true_iff, negb_true_iff, Qle_bool_false_iff, Qle_bool_iff.
  reflexivity.
Qed.

(** A window reset returns with [max_daily_loss_reached] false and the
    window restarted at the balance just read: the rolling loss ratio
    on that balance is 0. *)
Lemma reset_daily_metrics_clears_flag s :
  exists s',
    reset_daily_metrics O s = (Returns tt, s')
    /\ max_daily_loss_reached (risk_manager s') = false
    /\ initial_balance (risk_manager s') = account_value_at O s
    /\ last_balance (risk_manager s') = account_value_at O s.
Proof.
  unfold reset_daily_metrics, _get_current_balance, _get_current_balance_or,
    account_value_at.
  unfold_monad. simpl.
  destruct (account_balance O (n_balance s) DOGE); simpl;
    [destruct (account_balance O (S (n_balance s)) USDT); simpl;
       [destruct (current_price O (n_price s)); simpl|]|];
    eexists; repeat split; reflexivity.
Qed.

(** Once the exchange is frozen, every later balance query computes the
    same account value. *)
Lemma account_value_at_frozen s0 s :
  frozen O s0 -> later s0 s ->
  last_balance (risk_manager s) = last_balance (risk_manager s0) ->
  account_value_at O s = account_value_at O s0.
Proof.
  intros (_ & Hbal & Hprice) (_ & Hb & Hp) Hlast.
  unfold account_value_at.
  rewrite (Hbal (n_balance s) DOGE), (Hbal (S (n_balance s)) USDT),
          (Hbal (S (n_balance s0)) USDT), (Hprice (n_price s)), Hlast
    by lia.
  reflexivity.
Qed.

Lemma halted_frozen s0 s :
  frozen O s0 -> later s0 s ->
  initial_balance (risk_manager s) = initial_balance (risk_manager s0) ->
  last_balance (risk_manager s) = last_balance (risk_manager s0) ->
  halted O risk_params s = halted O risk_params s0.
Proof.
  intros Hf Hl Hi Hlast. unfold halted, halt_condition, loss_ratio_percent.
  rewrite (account_value_at_frozen s0 s Hf Hl Hlast), Hi. reflexivity.
Qed.

Lemma should_stop_trading_footprint s :
  exists s',
    should_stop_trading O risk_params s = (Returns (halted O risk_params s), s')
    /\ gate_footprint s s'.
Proof.
  destruct (should_stop_trading_spec s)
    as (s' & Hrun & Hrm & Hex & Hpl & Ht & Hb & Hp).
  exists s'. split; [exact Hrun|].
  unfold gate_footprint, later. rewrite Hrm.
  destruct (Qle_bool (initial_balance (risk_manager s)) 0);
    repeat split; auto; lia.
Qed.

(** [_can_place_order] never raises: it answers whether both gates are
    open, and only makes queries. *)
Lemma _can_place_order_spec s :
  exists s',
    _can_place_order O risk_params s
    = (Returns (negb (throttled O s) && negb (halted O risk_params s)), s')
    /\ gate_footprint s s'.
Proof.
  unfold _can_place_order, throttled.
  unfold mbind at 1, M_bind at 1, now at 1.
  unfold mbind at 1, M_bind at 1, get at 1. cbn [executor].
  destruct (Qlt_bool (time_time O (n_time s) - last_order_time (executor s))
                     (min_order_interval (executor s))) eqn:Hthr.
  - unfold_monad. simpl. eexists. split; [reflexivity|].
    unfold gate_footprint, later. simpl. repeat split; lia.
  - match goal with |- context [@mbind _ _ _ _ _ _ ?st] =>
      destruct (should_stop_trading_footprint st) as (s' & Hrun & Hfp) end.
    rewrite (bind_returns _ _ _ _ _ Hrun).
    exists s'. split.
    + unfold halted, account_value_at in *. simpl in *.
      destruct (halt_condition _ _ _); reflexivity.
    + unfold gate_footprint, later in *. simpl in *.
      destruct Hfp as (? & ? & (? & ? & ?) & ? & ?).
      repeat split; auto; lia.
Qed.

(** The rejection.  When the throttle gate fails (the time since the
    last order is below [min_order_interval]) or the risk-halt gate fails
    (the halt condition of [should_stop_trading] holds), [execute_order]
    returns a rejection, [place_order] is not invoked, and
    [last_order_time] (like the whole executor, ledger included) is left
    unchanged.  The two details of the rejection are computed by
    evaluating both gates once more, after the decision; only when the
    clock and the exchange do not move during the call are they the
    verdicts that decided: [time_constraint] that of the throttle gate,
    [risk_constraint] that of the risk-halt gate, at least one of them
    true. *)
Theorem execute_order_rejects_when_gated order_type sz px s :
  throttled O s = true \/ halted O risk_params s = true ->
  exists time_constraint risk_constraint s',
    execute_order O risk_params order_type sz px s
    = (Returns (Rejected time_constraint risk_constraint), s')
    /\ placed s' = placed s
    /\ last_order_time (executor s') = last_order_time (executor s)
    /\ executor s' = executor s
    /\ (frozen O s ->
        time_constraint = throttled O s
        /\ risk_constraint = halted O risk_params s
        /\ (time_constraint || risk_constraint = true)).
Proof.
  intros Hgate.
  destruct (_can_place_order_spec s) as (s1 & Hrun & Hfp1).
  assert (Hverdict : negb (throttled O s) && negb (halted O risk_params s) = false).
  { destruct Hgate as [-> | ->]; [reflexivity|apply andb_false_r]. }
  unfold execute_order.
  rewrite (bind_returns _ _ _ _ _ Hrun), Hverdict. cbn [negb].
  unfold mbind at 1, M_bind at 1, now at 1.
  unfold mbind at 1, M_bind at 1, get at 1. cbn [executor].
  match goal with |- context [@mbind _ _ _ _ _ _ ?st] =>
    destruct (should_stop_trading_footprint st) as (s2 & Hrun2 & Hfp2);
    set (s1' := st) in * end.
  rewrite (bind_returns _ _ _ _ _ Hrun2).
  unfold mret, M_ret.
  destruct Hfp1 as (Hex1 & Hpl1 & (Ht1 & Hb1 & Hp1) & Hi1 & Hl1).
  destruct Hfp2 as (Hex2 & Hpl2 & (Ht2 & Hb2 & Hp2) & Hi2 & Hl2).
  subst s1'. simpl in *.
  do 3 eexists. split; [reflexivity|].
  split; [congruence|]. split; [congruence|]. split; [congruence|].
  intros Hfrozen.
  assert (Htc : Qlt_bool (time_time O (n_time s1) - last_order_time (executor s1))
                         (min_order_interval (executor s1))
                = throttled O s).
  { unfold throttled. destruct Hfrozen as (Htime & _).
    rewrite (Htime (n_time s1)) by exact Ht1. rewrite Hex1. reflexivity. }
  assert (Hrc : halted O risk_params
                  {| risk_manager := risk_manager s1; executor := executor s1;
                     n_time := S (n_time s1); n_balance := n_balance s1;
                     n_price := n_price s1; placed := placed s1 |}
                = halted O risk_params s).
  { apply halted_frozen; [exact Hfrozen| |exact Hi1|exact Hl1].
    unfold later. simpl. repeat split; lia. }
  rewrite Htc, Hrc. repeat split.
  destruct (throttled O s); [reflexivity|].
  destruct (halted O risk_params s); [reflexivity|discriminate].
Qed.

(** *** What a computation always does to the state

    [always R m] is compositional for a reflexive and transitive [R]:
    it passes through [bind] and [try ... except], whichever way the
    computation leaves. *)

Section Always.

Variable R : State -> State -> Prop.
Hypothesis R_refl : forall s, R s s.
Hypothesis R_trans : forall s1 s2 s3, R s1 s2 -> R s2 s3 -> R s1 s3.

Lemma always_ret {A} (a : A) : always R (ret a).
Proof. intros s. apply R_refl. Qed.

Lemma always_raise {A} e : always R (@raise A e).
Proof. intros s. apply R_refl. Qed.

Lemma always_get {A} (f : State -> A) : always R (get f).
Proof. intros s. apply R_refl. Qed.

Lemma always_modify f : (forall s, R s (f s)) -> always R (modify f).
Proof. intros H s. apply H. Qed.

Lemma always_bind {A B} (m : M A) (k : A -> M B) :
  always R m -> (forall a, always R (k a)) -> always R (m ≫= k).
Proof.
  intros Hm Hk s. unfold mbind, M_bind.
  specialize (Hm s). destruct (m s) as [[a|e] s1]; simpl in *.
  - eapply R_trans; [exact Hm | apply Hk].
  - exact Hm.
Qed.

Lemma always_try_except {A} (m : M A) h :
  always R m -> (forall e, always R (h e)) -> always R (try_except m h).
Proof.
  intros Hm Hh s. unfold try_except.
  specialize (Hm s). destruct (m s) as [[a|e] s1]; simpl in *.
  - exact Hm.
  - eapply R_trans; [exact Hm | apply Hh].
Qed.

Lemma always_py_div a b : always R (py_div a b).
Proof. unfold py_div. destruct (Qeq_bool b 0); [apply always_raise|apply always_ret]. Qed.

(** The queries change counters only. *)
Hypothesis R_queries : forall s s',
  risk_manager s' = risk_manager s -> executor s' = executor s ->
  placed s' = placed s -> R s s'.

Lemma always_now : always R (now O).
Proof. intros s. apply R_queries; reflexivity. Qed.

Lemma always_get_account_balance ccy : always R (get_account_balance O ccy).
Proof. intros s. apply R_queries; reflexivity. Qed.

Lemma always_get_current_price : always R (get_current_price O).
Proof. intros s. apply R_queries; reflexivity. Qed.

Lemma always__get_current_balance_or f : always R (_get_current_balance_or O f).
Proof.
  unfold _get_current_balance_or.
  apply always_try_except; [|intros; apply always_get].
  repeat (apply always_bind; [|intros ?]);
    auto using always_get_account_balance, always_get_current_price, always_ret.
Qed.

(** Changing the risk manager is within [R]. *)
Hypothesis R_risk_manager : forall r s, R s (set_risk_manager r s).

Lemma always_RiskManager_init : always R (RiskManager_init O).
Proof.
  unfold RiskManager_init.
  apply always_bind; [apply always_now|intros t].
  apply always_bind; [apply always__get_current_balance_or|intros b].
  apply always_modify. intros s. apply R_risk_manager.
Qed.

Lemma always_reset_daily_metrics : always R (reset_daily_metrics O).
Proof.
  unfold reset_daily_metrics, _get_current_balance.
  apply always_bind; [apply always_now|intros t].
  apply always_bind; [apply always__get_current_balance_or|intros b].
  apply always_modify. intros s. apply R_risk_manager.
Qed.

Lemma always_update_metrics : always R (update_metrics O risk_params).
Proof.
  unfold update_metrics, _get_current_balance.
  apply always_bind; [apply always_now|intros t].
  apply always_bind; [apply always_get|intros t0].
  apply always_bind.
  { destruct (Qlt_bool _ _); [apply always_reset_daily_metrics|apply always_ret]. }
  intros _.
  apply always_bind; [apply always__get_current_balance_or|intros b].
  apply always_bind; [apply always_get|intros r].
  apply always_modify. intros s. apply R_risk_manager.
Qed.

Lemma always_check_position_size p : always R (check_position_size O risk_params p).
Proof.
  unfold check_position_size, _get_current_balance.
  apply always_bind; [apply always__get_current_balance_or|intros b].
  apply always_bind; [apply always_get_current_price|intros c].
  apply always_bind; [apply always_py_div|intros d].
  apply always_ret.
Qed.

Lemma always_should_stop_trading : always R (should_stop_trading O risk_params).
Proof.
  unfold should_stop_trading, _get_current_balance.
  apply always_bind; [apply always__get_current_balance_or|intros b].
  apply always_bind; [apply always_get|intros r].
  destruct (Qle_bool _ _); [apply always_ret|].
  apply always_bind; [|intros; apply always_ret].
  destruct (_ && _).
  - apply always_modify. intros s. apply R_risk_manager.
  - destruct (negb _); [|apply always_ret].
    apply always_modify. intros s. apply R_risk_manager.
Qed.

Lemma always__can_place_order : always R (_can_place_order O risk_params).
Proof.
  unfold _can_place_order.
  apply always_bind; [apply always_now|intros t].
  apply always_bind; [apply always_get|intros e].
  destruct (Qlt_bool _ _).
  - apply always_bind; [apply always_now|intros; apply always_ret].
  - apply always_bind; [apply always_should_stop_trading|intros stop].
    destruct stop; apply always_ret.
Qed.

End Always.

(** *** The ledger is append-only and holds terminal records *)

Lemma history_extends_refl s : history_extends s s.
Proof. exists []. split; [now rewrite app_nil_r|constructor]. Qed.

Lemma history_extends_trans s1 s2 s3 :
  history_extends s1 s2 -> history_extends s2 s3 -> history_extends s1 s3.
Proof.
  intros (l1 & H1 & F1) (l2 & H2 & F2). exists (l1 ++ l2). split.
  - rewrite H2, H1. now rewrite app_assoc.
  - apply Forall_app. split; assumption.
Qed.

Lemma history_extends_same s s' :
  order_history (executor s') = order_history (executor s) ->
  history_extends s s'.
Proof. intros H. exists []. split; [now rewrite app_nil_r|constructor]. Qed.

Lemma history_extends_queries s s' :
  risk_manager s' = risk_manager s -> executor s' = executor s ->
  placed s' = placed s -> history_extends s s'.
Proof. intros _ H _. apply history_extends_same. now rewrite H. Qed.

Lemma history_extends_risk_manager r s : history_extends s (set_risk_manager r s).
Proof. now apply history_extends_same. Qed.

Lemma always_append_order o :
  terminal (status o) -> always history_extends (append_order o).
Proof.
  intros Ht s. exists [o]. split; [reflexivity|]. constructor; [exact Ht|constructor].
Qed.

Lemma always_place_order c : always history_extends (place_order O c).
Proof. intros s. now apply history_extends_same. Qed.

Lemma always_first_ordId result : always history_extends (first_ordId result).
Proof.
  unfold first_ordId. destruct (data result) as [[|d l]|].
  - apply always_raise, history_extends_refl.
  - apply always_ret, history_extends_refl.
  - apply always_ret, history_extends_refl.
Qed.

(** The general facts of the previous section, for the ledger. *)
Lemma ledger_should_stop_trading :
  always history_extends (should_stop_trading O risk_params).
Proof.
  apply always_should_stop_trading;
    auto using history_extends_refl, history_extends_queries,
               history_extends_risk_manager.
  exact history_extends_trans.
Qed.

Lemma ledger_check_position_size p :
  always history_extends (check_position_size O risk_params p).
Proof.
  apply always_check_position_size;
    auto using history_extends_refl, history_extends_queries.
  exact history_extends_trans.
Qed.

Lemma ledger__can_place_order :
  always history_extends (_can_place_order O risk_params).
Proof.
  apply always__can_place_order;
    auto using history_extends_refl, history_extends_queries,
               history_extends_risk_manager.
  exact history_extends_trans.
Qed.

Lemma ledger_set_last_order_time t :
  always history_extends
    (modify (fun s => set_executor (set_last_order_time t (executor s)) s)).
Proof. apply always_modify. intros s. now apply history_extends_same. Qed.

Ltac ledger_step :=
  first
    [ apply ledger_should_stop_trading
    | apply ledger_check_position_size
    | apply ledger__can_place_order
    | apply ledger_set_last_order_time
    | apply always_place_order
    | apply always_first_ordId
    | apply always_append_order; unfold terminal; simpl; tauto
    | apply (always_now history_extends history_extends_queries)
    | apply (always_get_current_price history_extends history_extends_queries)
    | apply (always_ret history_extends history_extends_refl)
    | apply (always_get history_extends history_extends_refl)
    | apply (always_try_except history_extends history_extends_trans); [|intros ?]
    | apply (always_bind history_extends history_extends_trans); [|intros ?]
    | match goal with
      | |- always _ (if ?b then _ else _) => destruct b
      end ].

Lemma always_execute_order order_type sz px :
  always history_extends (execute_order O risk_params order_type sz px).
Proof. unfold execute_order. repeat ledger_step. Qed.

Lemma always_session_calls c :
  (forall oid, c <> CallCancelOrder oid) ->
  forall s, history_extends s (perform O risk_params c s).
Proof.
  intros Hc s. destruct c; simpl.
  - apply always_update_metrics;
      auto using history_extends_refl, history_extends_queries,
                 history_extends_risk_manager.
    exact history_extends_trans.
  - apply always_reset_daily_metrics;
      auto using history_extends_refl, history_extends_queries,
                 history_extends_risk_manager.
    exact history_extends_trans.
  - apply ledger_should_stop_trading.
  - apply ledger_check_position_size.
  - apply always_execute_order.
  - apply history_extends_refl.
  - exfalso. now apply (Hc oid).
Qed.

(** Nothing to cancel in a ledger of terminal records. *)
Lemma cancel_first_terminal oid h :
  Forall (fun o => terminal (status o)) h -> cancel_first oid h = None.
Proof.
  induction 1 as [|o h Ho _ IH]; simpl; [reflexivity|].
  rewrite IH.
  destruct Ho as [Ho|[Ho|Ho]]; rewrite Ho; simpl;
    rewrite andb_false_r; reflexivity.
Qed.

Lemma cancel_order_terminal oid s :
  Forall (fun o => terminal (status o)) (order_history (executor s)) ->
  cancel_order oid s = (Returns CancelRefused, s).
Proof.
  intros H. unfold cancel_order. unfold_monad.
  rewrite (cancel_first_terminal oid _ H). reflexivity.
Qed.

Lemma RiskManager_init_returns s :
  exists s', RiskManager_init O s = (Returns tt, s') /\ executor s' = executor s.
Proof.
  unfold RiskManager_init, _get_current_balance_or. unfold_monad. simpl.
  destruct (account_balance O (n_balance s) DOGE); simpl;
    [destruct (account_balance O (S (n_balance s)) USDT); simpl;
       [destruct (current_price O (n_price s)); simpl|]|];
    eexists; split; reflexivity.
Qed.

Lemma session_start_history blank :
  order_history (executor (session_start O blank)) = [].
Proof.
  unfold session_start.
  destruct (RiskManager_init_returns blank) as (s1 & Hrun & _).
  rewrite (bind_returns _ _ _ _ _ Hrun). reflexivity.
Qed.

(** Every record of the ledger of a reachable state has status
    ["success"], ["failed"] or ["error"]. *)
Lemma reachable_ledger_terminal s :
  reachable O risk_params s ->
  Forall (fun o => terminal (status o)) (order_history (executor s)).
Proof.
  induction 1 as [blank|s c Hs IH].
  - rewrite session_start_history. constructor.
  - destruct c;
      try (match goal with |- context [perform _ _ ?c _] =>
             destruct (always_session_calls c ltac:(discriminate) s) as (l & Hl & Fl)
           end; rewrite Hl; apply Forall_app; split; assumption).
    simpl. rewrite (cancel_order_terminal oid s IH). exact IH.
Qed.

(** C10.  In every state a session can reach, every ledger record has
    status ["success"], ["failed"] or ["error"] (never ["pending"]), and
    for every order identifier [cancel_order] returns its failure result
    and leaves the state, ledger included, unchanged. *)
Theorem cancel_order_never_succeeds s oid :
  reachable O risk_params s ->
  Forall (fun o => terminal (status o)) (order_history (executor s))
  /\ cancel_order oid s = (Returns CancelRefused, s)
  /\ cancel_success CancelRefused = false.
Proof.
  intros Hs. pose proof (reachable_ledger_terminal s Hs) as Hterm.
  split; [exact Hterm|]. split; [|reflexivity].
  apply cancel_order_terminal, Hterm.
Qed.

(** *** After the gates: the three ways [place_order] can end *)

Lemma quiet_check_position_size p : always quiet (check_position_size O risk_params p).
Proof.
  apply always_check_position_size; unfold quiet.
  - auto.
  - intros s1 s2 s3 [? ?] [? ?]. split; congruence.
  - auto.
Qed.

Lemma throttled_gate_closed s :
  throttled O s = true -> fst (_can_place_order O risk_params s) = Returns false.
Proof.
  intros H. destruct (_can_place_order_spec s) as (s' & Hrun & _).
  rewrite Hrun, H. reflexivity.
Qed.

Lemma submits_quiet order_type sz px s c s2 :
  submits O risk_params order_type sz px s c s2 -> quiet s s2.
Proof.
  intros (s1 & adj & Hgate & Hsize & _).
  destruct (_can_place_order_spec s) as (s1' & Hrun & Hex & Hpl & _).
  rewrite Hgate in Hrun. injection Hrun as _ <-.
  pose proof (quiet_check_position_size sz s1) as [Hex2 Hpl2].
  rewrite Hsize in Hex2, Hpl2. simpl in *.
  split; congruence.
Qed.

(** When [place_order] returns a failure result, a ["failed"] record is
    appended and the throttle timer is set to the clock reading taken
    after the call. *)
Lemma execute_order_when_place_order_fails order_type sz px s c s2 result :
  submits O risk_params order_type sz px s c s2 ->
  exchange O (length (placed s2)) c = Returns result ->
  code result <> Some "0"%string ->
  exists s' o,
    execute_order O risk_params order_type sz px s
    = (Returns (Failed (default "unknown error"%string (msg result)) result), s')
    /\ order_history (executor s') = order_history (executor s) ++ [o]
    /\ status o = failed
    /\ last_order_time (executor s') = time_time O (S (S (n_time s2)))
    /\ placed s' = placed s ++ [c].
Proof.
  intros Hsub Hex Hcode.
  destruct (submits_quiet _ _ _ _ _ _ Hsub) as [Hq1 Hq2].
  destruct Hsub as (s1 & adj & Hgate & Hsize & ->).
  unfold execute_order.
  rewrite (bind_returns _ _ _ _ _ Hgate). cbn [negb].
  rewrite (bind_returns _ _ _ _ _ Hsize).
  unfold try_except, append_order. unfold_monad. cbn -[bool_decide].
  rewrite Hex. cbn -[bool_decide].
  rewrite bool_decide_eq_false_2 by exact Hcode. cbn.
  do 2 eexists. split; [reflexivity|]. cbn.
  rewrite Hq1, Hq2. repeat split; reflexivity.
Qed.

(** When [place_order] raises, an ["error"] record is appended, but the
    assignment to [last_order_time], placed after the call inside the
    [try] block, is skipped: the throttle timer keeps its value. *)
Lemma execute_order_when_place_order_raises order_type sz px s c s2 e :
  submits O risk_params order_type sz px s c s2 ->
  exchange O (length (placed s2)) c = Raises e ->
  exists s' o,
    execute_order O risk_params order_type sz px s = (Returns (Errored e), s')
    /\ order_history (executor s') = order_history (executor s) ++ [o]
    /\ status o = error
    /\ last_order_time (executor s') = last_order_time (executor s)
    /\ placed s' = placed s ++ [c].
Proof.
  intros Hsub Hex.
  destruct (submits_quiet _ _ _ _ _ _ Hsub) as [Hq1 Hq2].
  destruct Hsub as (s1 & adj & Hgate & Hsize & ->).
  unfold execute_order.
  rewrite (bind_returns _ _ _ _ _ Hgate). cbn [negb].
  rewrite (bind_returns _ _ _ _ _ Hsize).
  unfold try_except, append_order. unfold_monad. cbn.
  rewrite Hex. cbn.
  do 2 eexists. split; [reflexivity|]. cbn.
  rewrite Hq1, Hq2. repeat split; reflexivity.
Qed.

End LiveFacts.

(** *** Two submissions ten seconds apart *)

Section ThrottleAfterFailure.

Import Live Scenario.

Lemma execute_order_rejects_when_gated_witness :
  exists s',
    execute_order standing_clock ∅ "buy" 100 None just_traded
    = (Returns (Rejected true false), s')
    /\ placed s' = placed just_traded
    /\ last_order_time (executor s') = last_order_time (executor just_traded).
Proof.
  destruct (execute_order_rejects_when_gated standing_clock ∅ "buy" 100 None
              just_traded)
    as (tc & rc & s' & Hrun & Hpl & Hlast & _ & Hdetails).
  - left. vm_compute. reflexivity.
  - destruct Hdetails as (Htc & Hrc & _).
    + repeat split; intros; reflexivity.
    + exists s'. rewrite Hrun, Htc, Hrc. repeat split; assumption.
Defined.

(** C3.  A rejection whose details name no gate.  The details of the
    rejection are not the verdicts [_can_place_order] reached: both gate
    conditions are evaluated again, with a new reading of the clock and
    new balance queries.  With the last order at 1000, an interval of 60
    and the clock at 1059 for the decision and at 1061 for the report,
    the throttle gate fails and the order is rejected, yet
    [time_constraint] and [risk_constraint] are both false.  Likewise
    with an account of 960 out of 1000 at the decision and 1000 at the
    report: the risk-halt gate fails, and the details show neither gate.
    In both cases [place_order] is not invoked and [last_order_time]
    stays as it was. *)
Theorem rejection_details_name_no_gate :
  (throttled clock_crossing just_traded = true
   /\ exists s',
        execute_order clock_crossing ∅ "buy" 100 None just_traded
        = (Returns (Rejected false false), s')
        /\ placed s' = placed just_traded
        /\ last_order_time (executor s') = last_order_time (executor just_traded))
  /\ (throttled recovering_account ready = false
      /\ halted recovering_account ∅ ready = true
      /\ exists s',
           execute_order recovering_account ∅ "buy" 100 None ready
           = (Returns (Rejected false false), s')
           /\ placed s' = placed ready
           /\ last_order_time (executor s') = last_order_time (executor ready)).
Proof.
  split; [split|split; [|split]].
  - vm_compute. reflexivity.
  - eexists. split; [vm_compute; reflexivity|]. split; reflexivity.
  - vm_compute. reflexivity.
  - vm_compute. reflexivity.
  - eexists. split; [vm_compute; reflexivity|]. split; reflexivity.
Qed.

(** The sibling path: when [place_order] returns a failure result, a
    ["failed"] record is appended, the throttle timer is advanced, and a
    second attempt 10 seconds later is rejected by the throttle gate
    without contacting the exchange. *)
Lemma retry_after_failure_is_throttled :
  let s0 := session_start exchange_refusing blank in
  let first := execute_order exchange_refusing ∅ "buy" 100 None s0 in
  let second := execute_order exchange_refusing ∅ "buy" 100 None (snd first) in
  fst first = Returns (Failed "insufficient balance"
                         {| code := Some "51008"%string;
                            msg := Some "insufficient balance"%string;
                            data := None |})
  /\ map status (order_history (executor (snd first))) = [failed]
  /\ last_order_time (executor (snd first)) = 1000
  /\ fst second = Returns (Rejected true false)
  /\ length (placed (snd second)) = 1%nat.
Proof. vm_compute. repeat split; reflexivity. Qed.

(** C1, the code at a failing input.  The gates pass and [place_order]
    raises: an ["error"] record is appended, but [last_order_time] keeps
    its old value 0, the throttle gate stays open, and a second attempt
    10 seconds later, with [min_order_interval = 60], is not rejected: it
    reaches the exchange again. *)
Theorem retry_after_exception_is_not_throttled :
  let s0 := session_start exchange_down blank in
  let first := execute_order exchange_down ∅ "buy" 100 None s0 in
  let second := execute_order exchange_down ∅ "buy" 100 None (snd first) in
  fst first = Returns (Errored "timeout")
  /\ map status (order_history (executor (snd first))) = [error]
  /\ min_order_interval (executor (snd first)) = 60
  /\ last_order_time (executor (snd first)) = last_order_time (executor s0)
  /\ throttled exchange_down (snd first) = false
  /\ fst second = Returns (Errored "timeout")
  /\ length (placed (snd second)) = 2%nat.
Proof. vm_compute. repeat split; reflexivity. Qed.

Lemma cancel_order_never_succeeds_witness :
  cancel_order "error"
    (perform exchange_down ∅ (CallExecuteOrder "buy" 100 None)
       (session_start exchange_down blank))
  = (Returns CancelRefused,
     perform exchange_down ∅ (CallExecuteOrder "buy" 100 None)
       (session_start exchange_down blank)).
Proof.
  apply (cancel_order_never_succeeds exchange_down ∅).
  apply reachable_call, reachable_start.
Defined.

End ThrottleAfterFailure.

(** *** A loss spread over two updates *)

Section DailyLossFlag.

Import Live Scenario.

(** C2, the code at a failing input.  The balance goes 100, 98, 96 over
    two [update_metrics]: the rolling loss ratio is 4%, above the limit of
    3%, yet [max_daily_loss_reached] is still false, because
    [update_metrics] compares the drop since the previous update (2%)
    with the limit; [should_stop_trading], on the same state, computes
    the rolling ratio and answers true.  Conversely the balance goes 100,
    110, 106: the rolling ratio is -6%, yet [update_metrics] sets
    [max_daily_loss_reached], the last drop being 4% of the starting
    balance. *)
Theorem update_metrics_flag_misses_rolling_loss :
  let s2 := perform sliding_account ∅ CallUpdateMetrics
              (perform sliding_account ∅ CallUpdateMetrics
                 (session_start sliding_account blank)) in
  let v2 := perform rebounding_account ∅ CallUpdateMetrics
              (perform rebounding_account ∅ CallUpdateMetrics
                 (session_start rebounding_account blank)) in
  (max_daily_loss_reached (risk_manager s2) = false
   /\ loss_ratio_percent (risk_manager s2) (account_value_at sliding_account s2)
      == 4
   /\ fst (should_stop_trading sliding_account ∅ s2) = Returns true)
  /\ (max_daily_loss_reached (risk_manager v2) = true
      /\ loss_ratio_percent (risk_manager v2)
                            (account_value_at rebounding_account v2) == -6
      /\ fst (should_stop_trading rebounding_account ∅ v2) = Returns false).
Proof. vm_compute. repeat split; reflexivity. Qed.

End DailyLossFlag.


(** ** Historical simulation *)

Section ReplayFacts.

Import SignalCombiner Backtester.

Variable weights : gmap string Q.
Variable signals : nat -> list Signal.

Lemma calculate_position_size_nonneg sig account_value current_price :
  0 <= account_value -> 0 < current_price ->
  0 <= calculate_position_size sig account_value current_price.
Proof.
  intros Hav Hp. rewrite calculate_position_size_eq.
  destruct (signal_factor_bounds sig) as [Hlo _].
  apply Qle_shift_div_l; [exact Hp|]. nra.
Qed.

(** Every bar trades under cover or not at all. *)
Lemma trade_at_covered combined b position cash_now log :
  covered_step b position cash_now log
    (trade_at combined b position cash_now log).
Proof.
  unfold trade_at, covered_step.
  destruct (should_trade combined); [|left; auto].
  destruct (determine_order_type (final_signal combined)); cbn [is_buy is_sell andb].
  - case_Qle (calculate_position_size (final_signal combined)
                (cash_now + position * close b) (close b)
              * close b * (1 + commission)) cash_now.
    + right. left. eexists. split; [reflexivity|]. cbn. auto.
    + left. auto.
  - case_Qle (calculate_position_size (final_signal combined)
                (cash_now + position * close b) (close b)) position.
    + right. right. eexists. split; [reflexivity|]. cbn. auto.
    + left. auto.
Qed.

Lemma trade_at_nonneg combined b position cash_now log :
  0 < close b -> 0 <= position -> 0 <= cash_now ->
  0 <= fst (fst (trade_at combined b position cash_now log))
  /\ 0 <= snd (fst (trade_at combined b position cash_now log)).
Proof.
  intros Hp Hpos Hcash.
  assert (Hsize : forall sig,
            0 <= calculate_position_size sig (cash_now + position * close b)
                                         (close b)).
  { intros sig. apply calculate_position_size_nonneg; [nra|exact Hp]. }
  pose proof (trade_at_covered combined b position cash_now log) as H.
  unfold trade_at in *. unfold covered_step in H.
  destruct (should_trade combined); [|simpl; auto].
  specialize (Hsize (final_signal combined)).
  set (size := calculate_position_size _ _ _) in *.
  destruct (is_buy _ && Qle_bool (size * close b * (1 + commission)) cash_now)
    eqn:Hbuy.
  - apply andb_true_iff in Hbuy as [_ Hcover].
    apply Qle_bool_iff in Hcover. simpl. split; lra.
  - destruct (is_sell _ && Qle_bool size position) eqn:Hsell; [|simpl; auto].
    apply andb_true_iff in Hsell as [_ Hcover].
    apply Qle_bool_iff in Hcover. simpl. unfold commission. split; [lra|nra].
Qed.

Lemma bar_step_solvent s i b :
  0 < close b -> solvent s -> solvent (bar_step weights signals s (i, b)).
Proof.
  intros Hp (Hpos & Hcash & Fpos & Fcash).
  unfold bar_step.
  pose proof (trade_at_nonneg (combine_signals weights (signals i)) b
                (current_position s) (current_cash s) (trade_log s)
                Hp Hpos Hcash) as [H1 H2].
  destruct (trade_at _ _ _ _ _) as [[position cash_now] log]. simpl in *.
  unfold solvent. simpl. repeat split; try assumption.
  - apply Forall_insert; assumption.
  - apply Forall_insert; assumption.
Qed.

Lemma fold_bar_step_solvent bars s :
  Forall (fun ib => 0 < close (snd ib)) bars -> solvent s ->
  solvent (fold_left (bar_step weights signals) bars s).
Proof.
  revert s. induction bars as [|[i b] bars IH]; intros s Hbars Hs; simpl.
  - exact Hs.
  - inversion Hbars as [|? ? Hb Hrest]; subst.
    apply IH; [exact Hrest|]. apply bar_step_solvent; assumption.
Qed.

Lemma replay_range_prices df :
  Forall (fun b => 0 < close b) df ->
  Forall (fun ib => 0 < close (snd ib)) (replay_range df).
Proof.
  intros H. unfold replay_range.
  assert (Hd : Forall (fun b => 0 < close b) (drop 50 df)) by now apply Forall_drop.
  generalize (seq 50 (length df - 50)). revert Hd.
  generalize (drop 50 df). intros bars. induction 1 as [|b bars Hb _ IH];
    intros [|i idx]; simpl; constructor; auto.
Qed.

Lemma replay_solvent df initial_capital :
  0 <= initial_capital -> Forall (fun b => 0 < close b) df ->
  solvent (replay weights signals df initial_capital).
Proof.
  intros Hcap Hdf. unfold replay.
  apply fold_bar_step_solvent; [now apply replay_range_prices|].
  unfold solvent, sim0. simpl. repeat split; try lra.
  - apply Forall_replicate. lra.
  - apply Forall_replicate. exact Hcap.
Qed.

(** C4.  At every bar the replay does nothing, or buys with the current
    cash covering [size * price * (1 + commission)], or sells with the
    current position covering the full size; no bar is an error.
    Consequently, from a non-negative initial capital and no position,
    over positive closing prices, the simulated cash and the simulated
    position are non-negative at every bar of the replay. *)
Theorem backtest_trades_covered_and_solvent df initial_capital :
  0 <= initial_capital ->
  Forall (fun b => 0 < close b) df ->
  (forall combined b position cash_now log,
     covered_step b position cash_now log
       (trade_at combined b position cash_now log))
  /\ solvent (replay weights signals df initial_capital)
  /\ (forall r, run_backtest weights signals df initial_capital = Returns r ->
        Forall (fun q => 0 <= q) (res_cash r)
        /\ Forall (fun q => 0 <= q) (res_positions r)).
Proof.
  intros Hcap Hdf.
  pose proof (replay_solvent df initial_capital Hcap Hdf) as Hsolv.
  split; [exact trade_at_covered|]. split; [exact Hsolv|].
  intros r Hr. unfold run_backtest in Hr.
  destruct (length df <? 50)%nat; [discriminate|].
  destruct (trade_statistics _) as [wr avg].
  injection Hr as <-. simpl.
  destruct Hsolv as (_ & _ & Fpos & Fcash). split; assumption.
Qed.

(** C8.  With fewer than 50 bars [run_backtest] raises, whatever the
    producers would have answered, and returns no report; with 50 bars or
    more it returns one. *)
Theorem run_backtest_needs_fifty_bars df initial_capital :
  ((length df < 50)%nat ->
     run_backtest weights signals df initial_capital = Raises "ValueError")
  /\ ((50 <= length df)%nat ->
       exists r, run_backtest weights signals df initial_capital = Returns r
                 /\ length (res_portfolio_value r) = length df).
Proof.
  unfold run_backtest. split; intros H.
  - apply Nat.ltb_lt in H. rewrite H. reflexivity.
  - assert (Hge : (length df <? 50)%nat = false) by (apply Nat.ltb_ge; exact H).
    rewrite Hge. destruct (trade_statistics _) as [wr avg].
    eexists. split; [reflexivity|]. simpl.
    unfold replay. generalize (replay_range df).
    assert (Hlen : length (portfolio_value (sim0 df initial_capital)) = length df)
      by (simpl; apply length_replicate).
    revert Hlen. generalize (sim0 df initial_capital).
    intros s0 Hlen bars. revert s0 Hlen.
    induction bars as [|[i b] bars IH]; intros s0 Hlen; simpl; [exact Hlen|].
    apply IH. unfold bar_step.
    destruct (trade_at _ _ _ _ _) as [[position cash_now] log]. simpl.
    rewrite length_insert. exact Hlen.
Qed.

End ReplayFacts.


(** *** The trade statistics on an alternating log *)

Section AlternatingLog.

Import SignalCombiner Backtester.

Lemma list_pair_ind {A} (P : list A -> Prop) :
  P [] -> (forall x, P [x]) -> (forall x y l, P l -> P (x :: y :: l)) ->
  forall l, P l.
Proof.
  intros H0 H1 H2.
  assert (H : forall l, P l /\ forall x, P (x :: l)).
  { induction l as [|y l [IH1 IH2]]; split; auto. }
  intros l. apply H.
Qed.

Lemma round_trips_alternating b s rest :
  trade_type b = buy -> trade_type s = sell ->
  round_trips (b :: s :: rest) = (b, s) :: round_trips rest.
Proof.
  intros Hb Hs. cbn [round_trips]. rewrite Hb, Hs. cbn [is_buy is_sell andb].
  destruct rest; reflexivity.
Qed.

Lemma pair_loop_alternating b s rest w t :
  trade_type b = buy -> trade_type s = sell ->
  pair_loop (b :: s :: rest) w t
  = pair_loop rest
      (if Qlt_bool 0 (gain_percent (b, s)) then S w else w)
      (t + gain_percent (b, s)).
Proof.
  intros Hb Hs. cbn [pair_loop]. rewrite Hb, Hs. cbn [is_buy is_sell andb].
  destruct rest; [reflexivity|]. rewrite andb_false_r. reflexivity.
Qed.

(** A gain is positive exactly when the sell price exceeds a positive
    buy price. *)
Lemma gain_positive_iff_win p :
  0 < trade_price (fst p) -> Qlt_bool 0 (gain_percent p) = is_win p.
Proof.
  intros Hb. unfold gain_percent, is_win.
  set (b := trade_price (fst p)) in *. set (s := trade_price (snd p)).
  assert (Hd : (s - b) / b * b == s - b) by (field; lra).
  case_Qlt 0 ((s - b) / b * 100); case_Qlt b s; try reflexivity; exfalso; nra.
Qed.

Lemma alternating_statistics log :
  alternating log ->
  Forall (fun t => 0 < trade_price t) log ->
  forall w t,
    fst (pair_loop log w t)
    = (w + length (filter (fun p => is_win p = true) (round_trips log)))%nat
    /\ snd (pair_loop log w t) == t + Qsum (map gain_percent (round_trips log))
    /\ length (round_trips log) = (length log / 2)%nat.
Proof.
  induction log as [|b|b s rest IH] using list_pair_ind; intros Halt Hpos w t.
  - simpl. repeat split; [lia|lra].
  - simpl. repeat split; [lia|lra].
  - destruct Halt as (Hb & Hs & Hrest).
    inversion Hpos as [|? ? Hpb Hpos']; subst.
    inversion Hpos' as [|? ? Hps Hpos'']; subst.
    rewrite pair_loop_alternating, round_trips_alternating by assumption.
    rewrite (gain_positive_iff_win (b, s)) by exact Hpb.
    destruct (IH Hrest Hpos''
                (if is_win (b, s) then S w else w)
                (t + gain_percent (b, s))) as (Hw & Ht & Hl).
    rewrite Hw, Ht, filter_cons. cbn [map Qsum fold_right length].
    repeat split.
    + destruct (is_win (b, s)) eqn:Hwin.
      * rewrite decide_True by reflexivity. simpl. lia.
      * rewrite decide_False by discriminate. lia.
    + unfold Qsum. lra.
    + rewrite Hl. cbn [length].
      replace (S (S (length rest))) with (1 * 2 + length rest)%nat by lia.
      rewrite Nat.div_add_l by lia. lia.
Qed.

(** On a log that alternates buy and sell, starting with a buy at
    positive prices, the reported [win_rate] and [avg_return_per_trade]
    are the share of winning round trips and their mean gain; a trailing
    unpaired buy changes neither. *)
Lemma trade_statistics_alternating log :
  alternating log ->
  Forall (fun t => 0 < trade_price t) log ->
  fst (trade_statistics log) == spec_win_rate log
  /\ snd (trade_statistics log) == spec_avg_return log.
Proof.
  intros Halt Hpos.
  destruct (alternating_statistics log Halt Hpos O 0) as (Hw & Ht & Hl).
  unfold trade_statistics, spec_win_rate, spec_avg_return, half_trades, Qlen.
  destruct (pair_loop log 0 0) as [winning total]. simpl in Hw, Ht.
  rewrite <- Hl.
  destruct log as [|b [|s rest]]; [simpl; split; reflexivity| |].
  - simpl. split; reflexivity.
  - destruct Halt as (Hb & Hs & _).
    rewrite round_trips_alternating in * by assumption.
    cbn [length Nat.ltb Nat.leb fst snd].
    rewrite Hw. split; [reflexivity|].
    rewrite Ht. apply Qdiv_comp; [lra|reflexivity].
Qed.

End AlternatingLog.

(** *** Three buys and a sell *)

Section Pyramiding.

Import SignalCombiner Backtester Scenario.

(** C7, the code at a failing input.  The replay buys three times at
    price 1 and sells once at price 2.  The trade log has one adjacent
    buy-then-sell pair, and it wins with a gain of 100%: the share of
    winning round trips is 100% and the mean gain 100%.  The report says
    [win_rate = 50] and [avg_return_per_trade = 50], because both are
    divided by [num_trades // 2 = 2] instead of the number of pairs. *)
Theorem win_rate_divides_by_half_the_trades :
  exists r,
    run_backtest ∅ pyramiding_signals pyramiding_prices 1000 = Returns r
    /\ map trade_type (res_trade_log r) = [buy; buy; buy; sell]
    /\ map trade_price (res_trade_log r) = [1; 1; 1; 2]
    /\ length (round_trips (res_trade_log r)) = 1%nat
    /\ spec_win_rate (res_trade_log r) == 100
    /\ win_rate r == 50
    /\ spec_avg_return (res_trade_log r) == 100
    /\ avg_return_per_trade r == 50.
Proof.
  eexists. split; [vm_compute; reflexivity|].
  vm_compute. repeat split; reflexivity.
Qed.

Lemma pyramiding_prices_positive : Forall (fun b => 0 < close b) pyramiding_prices.
Proof.
  unfold pyramiding_prices. apply Forall_app. split.
  - apply Forall_replicate. reflexivity.
  - repeat constructor.
Qed.

Lemma backtest_trades_covered_and_solvent_witness :
  Forall (fun q => 0 <= q)
         (cash (replay ∅ pyramiding_signals pyramiding_prices 1000))
  /\ Forall (fun q => 0 <= q)
            (positions (replay ∅ pyramiding_signals pyramiding_prices 1000)).
Proof.
  destruct (backtest_trades_covered_and_solvent ∅ pyramiding_signals
              pyramiding_prices 1000)
    as (_ & (_ & _ & Hpos & Hcash) & _).
  - vm_compute. discriminate.
  - exact pyramiding_prices_positive.
  - split; assumption.
Defined.

Lemma run_backtest_needs_fifty_bars_witness :
  run_backtest ∅ pyramiding_signals (replicate 49 (flat_bar 1)) 1000
  = Raises "ValueError"
  /\ exists r, run_backtest ∅ pyramiding_signals pyramiding_prices 1000 = Returns r
               /\ length (res_portfolio_value r) = length pyramiding_prices.
Proof.
  split.
  - apply (run_backtest_needs_fifty_bars ∅ pyramiding_signals
             (replicate 49 (flat_bar 1)) 1000).
    vm_compute. lia.
  - apply (run_backtest_needs_fifty_bars ∅ pyramiding_signals
             pyramiding_prices 1000).
    vm_compute. lia.
Defined.

End Pyramiding.


(** * Further properties *)

(** ** The combined signal *)

Section CombinedSignalFacts.

Import SignalCombiner.

Variable weights : gmap string Q.





Lemma fold_reasons n sigs a :
  acc_reasons (fold_left (combine_step weights n) sigs a)
  = acc_reasons a
    ++ map reason_of (filter (fun s => gives_reason s = true) sigs).
Proof.
  revert a. induction sigs as [|s sigs IH]; intros a; simpl.
  - now rewrite app_nil_r.
  - rewrite IH, filter_cons. unfold combine_step, gives_reason, contributes.
    fold (confidence_read s) (signal_read s).
    destruct (Qlt_bool 0 (confidence_read s)); simpl; [|reflexivity].
    destruct (Qeq_bool (signal_read s) 0); simpl; [reflexivity|].
    now rewrite <- app_assoc.
Qed.

(** X3.  [reasons] holds one entry for each signal with confidence > 0
    and a non-zero value, in the order the signals were supplied, and
    nothing else. *)
Theorem reasons_in_order sigs :
  reasons (combine_signals weights sigs)
  = map reason_of (filter (fun s => gives_reason s = true) sigs).
Proof.
  unfold combine_signals. cbn [reasons]. unfold combine_loop.
  now rewrite fold_reasons.
Qed.

Lemma fold_details n sigs a name :
  acc_details (fold_left (combine_step weights n) sigs a) !! name
  = match last (filter (fun s => contributes s = true /\ name_read s = name) sigs) with
    | Some s => Some (detail_of weights n s)
    | None => acc_details a !! name
    end.
Proof.
  revert a. induction sigs as [|s sigs IH]; intros a; simpl; [reflexivity|].
  rewrite IH, filter_cons.
  assert (Hstep : combine_step weights n a s
                  = if contributes s
                    then combine_step weights n a s else a).
  { unfold combine_step, contributes. fold (confidence_read s).
    destruct (Qlt_bool 0 (confidence_read s)); reflexivity. }
  assert (Hdet : contributes s = true ->
                 acc_details (combine_step weights n a s)
                 = <[name_read s := detail_of weights n s]> (acc_details a)).
  { intros Hc. unfold combine_step, contributes in *.
    fold (confidence_read s) in *. rewrite Hc. reflexivity. }
  destruct (decide (contributes s = true /\ name_read s = name)) as [[Hc Hn]|Hno].
  - rewrite last_cons. destruct (last _); [reflexivity|].
    rewrite (Hdet Hc), Hn. apply lookup_insert_eq.
  - destruct (last _); [reflexivity|].
    rewrite Hstep. destruct (contributes s) eqn:Hc; [|reflexivity].
    rewrite (Hdet eq_refl). apply lookup_insert_ne. tauto.
Qed.

(** X4.  [details] is keyed by strategy name: the entry of a name is
    built from the last signal of that name with confidence > 0 (an
    earlier one is overwritten), and a name without such a signal has no
    entry. *)
Theorem details_keep_last_signal sigs name :
  details (combine_signals weights sigs) !! name
  = detail_of weights (length sigs)
    <$> last (filter (fun s => contributes s = true /\ name_read s = name) sigs).
Proof.
  unfold combine_signals. cbn [details]. unfold combine_loop.
  rewrite fold_details. destruct (last _); reflexivity.
Qed.

(** X5.  On the output of [combine_signals] the confidence test of
    [should_trade] adds nothing to the test of the denominator: the
    decision is to trade exactly when the denominator is positive and
    the absolute combined signal reaches the threshold. *)
Theorem should_trade_after_combining sigs threshold :
  should_trade_with (combine_signals weights sigs) threshold = true
  <-> 0 < total_weight (combine_loop weights sigs)
      /\ threshold <= Qabs (final_signal (combine_signals weights sigs)).
Proof.
  unfold should_trade_with. rewrite andb_true_iff, !Qle_bool_iff.
  destruct (combined_confidence_cases weights sigs) as [[Hpos ->]|[Hle ->]].
  - split; [intros [H _]; auto|intros [_ H]; split; [exact H|lra]].
  - split; [intros [_ H]; lra|intros [H _]; lra].
Qed.

End CombinedSignalFacts.

(** ** From the decision to the order *)

Section DecisionFacts.

Import SignalCombiner.

(** X6.  With a positive threshold a combined signal of 0 is never
    traded, so the order type of a traded signal follows its sign: buy
    for a positive signal, sell for a negative one.  The mapping of 0 to
    "sell" in [determine_order_type] is reached only with a threshold
    that is not positive. *)
Theorem traded_signal_has_a_side combined threshold :
  0 < threshold ->
  should_trade_with combined threshold = true ->
  (determine_order_type (final_signal combined) = buy
   /\ 0 < final_signal combined)
  \/ (determine_order_type (final_signal combined) = sell
      /\ final_signal combined < 0).
Proof.
  intros Hth Htrade. unfold should_trade_with in Htrade.
  apply andb_true_iff in Htrade as [Hstrength _].
  apply Qle_bool_iff in Hstrength.
  unfold determine_order_type.
  case_Qlt 0 (final_signal combined); [left; auto|right].
  split; [reflexivity|].
  destruct (Qle_lt_or_eq _ _ Hcmp) as [Hneg|Hzero]; [exact Hneg|].
  exfalso. rewrite Hzero in Hstrength. simpl in Hstrength.
  apply (Qlt_not_le _ _ Hth). exact Hstrength.
Qed.

Lemma Qabs_opp_eq (q : Q) : Qabs (- q) = Qabs q.
Proof. destruct q as [n d]. unfold Qabs, Qopp. simpl. now rewrite Z.abs_opp. Qed.

(** X7.  The position size depends on the strength of the signal only,
    not on its direction; and for a signal in [-1, 1] the value of the
    position, [size * price], lies between 0.5% and 2% of the account
    value: the upper clamp of 3% is out of reach of such signals. *)
Theorem position_size_of_bounded_signal sig account_value current_price :
  0 <= account_value -> 0 < current_price -> Qabs sig <= 1 ->
  calculate_position_size (- sig) account_value current_price
  = calculate_position_size sig account_value current_price
  /\ (5 # 1000) * account_value
     <= calculate_position_size sig account_value current_price * current_price
  /\ calculate_position_size sig account_value current_price * current_price
     <= (2 # 100) * account_value.
Proof.
  intros Hav Hp Hsig. split.
  - unfold calculate_position_size, signal_factor. now rewrite Qabs_opp_eq.
  - rewrite calculate_position_size_eq.
    assert (Hcancel : account_value * (1 # 100) * signal_factor sig
                        / current_price * current_price
                      == account_value * (1 # 100) * signal_factor sig)
      by (field; lra).
    rewrite Hcancel.
    destruct (signal_factor_bounds sig) as [Hlo _].
    assert (Hhi : signal_factor sig <= 2).
    { unfold signal_factor.
      eapply Qle_trans; [apply py_min_le_r|]. apply py_max_lub; lra. }
    split; nra.
Qed.

End DecisionFacts.

(** ** The risk manager beyond the halt flag *)

Section RiskManagerFacts.

Import Live.

Variable O : Oracle.
Variable risk_params : gmap string Q.

Ltac unfold_monad :=
  unfold mbind, M_bind, mret, M_ret, get, modify, raise, try_except, now,
    get_account_balance, get_current_price, place_order in *.

(** X8.  The take-profit distance is [take_profit_ratio] times the
    stop-loss distance; and for a positive entry price, a stop-loss
    percentage between 0 and 100 and a positive ratio, the stop-loss
    price is positive and below the entry price, which is below the
    take-profit price. *)
Theorem stop_loss_and_take_profit_bracket entry_price :
  let stop_loss_percent := default 5 (risk_params !! "stop_loss_percent"%string) in
  let take_profit_ratio := default 2 (risk_params !! "take_profit_ratio"%string) in
  0 < entry_price ->
  0 < stop_loss_percent -> stop_loss_percent < 100 -> 0 < take_profit_ratio ->
  calculate_take_profit risk_params entry_price - entry_price
  == take_profit_ratio
     * (entry_price - calculate_stop_loss risk_params entry_price)
  /\ 0 < calculate_stop_loss risk_params entry_price
  /\ calculate_stop_loss risk_params entry_price < entry_price
  /\ entry_price < calculate_take_profit risk_params entry_price.
Proof.
  cbv zeta. unfold calculate_take_profit, calculate_stop_loss.
  set (slp := default 5 _). set (ratio := default 2 _).
  intros He Hs Hs' Hr.
  assert (Hd : slp / 100 == slp * (1 # 100)) by (field; lra).
  assert (Hd' : slp * ratio / 100 == slp * ratio * (1 # 100)) by (field; lra).
  rewrite Hd, Hd'.
  assert (0 < slp * ratio) by (apply Qmult_lt_0_compat; assumption).
  repeat split; first [ring | nra].
Qed.

(** What [check_position_size] answers: the exception of the price
    query, [ZeroDivisionError] for a price of 0, and otherwise the
    smaller of the proposed size and the cap; the two objects are not
    touched. *)
Lemma check_position_size_outcome proposed_size s :
  exists s1,
    _get_current_balance O s = (Returns (account_value_at O s), s1)
    /\ same_objects s s1
    /\ exists s',
         same_objects s s'
         /\ check_position_size O risk_params proposed_size s
            = (match current_price O (n_price s1) with
               | Raises e => Raises e
               | Returns p =>
                   if Qeq_bool p 0 then Raises "ZeroDivisionError"
                   else Returns
                          (py_min proposed_size
                             (account_value_at O s
                              * (default 5 (risk_params !! "max_position_percent"%string)
                                 / 100) / p))
               end, s').
Proof.
  destruct (_get_current_balance_spec O s) as (s1 & Hrun & Hsame).
  exists s1. split; [exact Hrun|]. split; [exact Hsame|].
  unfold check_position_size. rewrite (bind_returns _ _ _ _ _ Hrun).
  unfold py_div. unfold_monad. simpl.
  destruct Hsame as (Hrm & Hex & Hpl & Ht & Hb & Hp).
  destruct (current_price O (n_price s1)) as [p|e]; simpl.
  - destruct (Qeq_bool p 0); simpl; eexists;
      (split; [|reflexivity]); unfold same_objects; simpl;
      repeat split; auto; lia.
  - eexists. split; [|reflexivity]. unfold same_objects; simpl.
    repeat split; auto; lia.
Qed.

(** X9.  When [check_position_size] returns, the size it returns exceeds
    neither the proposed size nor the cap
    [account_value * max_position_percent / 100 / price], for the account
    value it read and a non-zero price the exchange quoted; and neither
    the risk manager nor the executor has changed. *)
Theorem check_position_size_caps proposed_size s adjusted s' :
  check_position_size O risk_params proposed_size s = (Returns adjusted, s') ->
  adjusted <= proposed_size
  /\ (exists n p,
        (n_price s <= n)%nat /\ current_price O n = Returns p /\ ~ p == 0
        /\ adjusted
           <= account_value_at O s
              * (default 5 (risk_params !! "max_position_percent"%string) / 100)
              / p)
  /\ risk_manager s' = risk_manager s
  /\ executor s' = executor s
  /\ placed s' = placed s.
Proof.
  intros Hrun.
  destruct (check_position_size_outcome proposed_size s)
    as (s1 & _ & Hs1 & s2 & Hs2 & Hout).
  rewrite Hout in Hrun.
  destruct (current_price O (n_price s1)) as [p|e] eqn:Hprice; [|discriminate].
  destruct (Qeq_bool p 0) eqn:Hzero; [discriminate|].
  injection Hrun as <- <-.
  destruct Hs1 as (_ & _ & _ & _ & _ & Hp1).
  destruct Hs2 as (Hrm & Hex & Hpl & _).
  split; [apply py_min_le_l|]. split; [|auto].
  exists (n_price s1), p. repeat split; [exact Hp1|exact Hprice| |apply py_min_le_r].
  intros Heq. apply Qeq_bool_iff in Heq. congruence.
Qed.

(** X10.  A window that started with a balance of 0 or less disables the
    circuit breaker: [should_stop_trading] answers false whatever the
    balance, and leaves the risk manager as it is.  This is the state
    the constructor produces when a balance query raises, its fallback
    being 0. *)
Theorem breaker_off_without_starting_balance :
  (forall s, initial_balance (risk_manager s) <= 0 ->
     exists s', should_stop_trading O risk_params s = (Returns false, s')
                /\ risk_manager s' = risk_manager s)
  /\ (forall blank e,
        account_balance O (n_balance blank) DOGE = Raises e ->
        initial_balance (risk_manager (session_start O blank)) = 0
        /\ last_balance (risk_manager (session_start O blank)) = 0).
Proof.
  split.
  - intros s Hib.
    destruct (should_stop_trading_spec O risk_params s)
      as (s' & Hrun & Hrm & _).
    assert (Hle : Qle_bool (initial_balance (risk_manager s)) 0 = true)
      by now apply Qle_bool_iff.
    rewrite Hle in Hrm.
    exists s'. split; [|exact Hrm].
    rewrite Hrun. unfold halted, halt_condition. now rewrite Hle.
  - intros blank e Hraise.
    unfold session_start, RiskManager_init, OrderExecutor_init,
      _get_current_balance_or.
    unfold_monad. simpl. rewrite Hraise. simpl. split; reflexivity.
Qed.

(** [update_metrics] inside the 24-hour window: it returns, and the new
    risk manager is the old one with the observed balance written in. *)
Lemma update_metrics_no_reset s :
  time_time O (n_time s) - daily_reset_time (risk_manager s) <= 86400 ->
  exists s',
    update_metrics O risk_params s = (Returns tt, s')
    /\ executor s' = executor s /\ placed s' = placed s
    /\ risk_manager s'
       = (let r := risk_manager s in
          let b := account_value_at O s in
          let loss := py_max 0 (last_balance r - b) in
          {| daily_pnl := b - initial_balance r;
             daily_loss := loss;
             daily_reset_time := daily_reset_time r;
             initial_balance := initial_balance r;
             last_balance := b;
             max_daily_loss_reached :=
               if Qlt_bool 0 (initial_balance r)
               then if Qle_bool (default 3 (risk_params !! "max_daily_loss"%string))
                                (loss / initial_balance r * 100)
                       && negb (max_daily_loss_reached r)
                    then true else max_daily_loss_reached r
               else max_daily_loss_reached r |}).
Proof.
  intros Hwin. apply Qlt_bool_false_iff in Hwin.
  unfold update_metrics.
  unfold mbind at 1, M_bind at 1, now at 1.
  unfold mbind at 1, M_bind at 1, get at 1. cbn [risk_manager].
  rewrite Hwin.
  unfold mbind at 1, M_bind at 1, mret at 1, M_ret at 1.
  match goal with |- context [@mbind _ _ _ _ _ _ ?st] =>
    destruct (_get_current_balance_spec O st)
      as (s1 & Hrun & Hrm & Hex & Hpl & _) end.
  rewrite (bind_returns _ _ _ _ _ Hrun).
  unfold_monad. simpl in *. rewrite Hrm.
  eexists. split; [reflexivity|]. simpl. auto.
Qed.

(** X11.  Inside the 24-hour window [update_metrics] does not raise, even
    when the exchange does; it keeps the start of the window (time and
    balance), records the balance it observed and the profit against the
    start of the window, reports a loss that is never negative, never
    clears [max_daily_loss_reached], and does not touch the executor. *)
Theorem update_metrics_within_window s :
  time_time O (n_time s) - daily_reset_time (risk_manager s) <= 86400 ->
  exists s',
    update_metrics O risk_params s = (Returns tt, s')
    /\ initial_balance (risk_manager s') = initial_balance (risk_manager s)
    /\ daily_reset_time (risk_manager s') = daily_reset_time (risk_manager s)
    /\ last_balance (risk_manager s') = account_value_at O s
    /\ daily_pnl (risk_manager s')
       = account_value_at O s - initial_balance (risk_manager s)
    /\ 0 <= daily_loss (risk_manager s')
    /\ (max_daily_loss_reached (risk_manager s) = true ->
        max_daily_loss_reached (risk_manager s') = true)
    /\ executor s' = executor s
    /\ placed s' = placed s.
Proof.
  intros Hwin.
  destruct (update_metrics_no_reset s Hwin) as (s' & Hrun & Hex & Hpl & Hrm).
  exists s'. rewrite Hrm. cbn.
  repeat split; auto.
  - apply py_max_ge_l.
  - intros ->. destruct (Qlt_bool 0 _); [|reflexivity].
    now rewrite andb_false_r.
Qed.

(** X12.  An outage of the exchange does not trip the breaker: inside
    the window, with a positive limit, when the balance query raises,
    [update_metrics] falls back on the last balance, reports a loss of 0
    and leaves [max_daily_loss_reached] and the last balance as they
    were. *)
Theorem update_metrics_during_outage s e :
  time_time O (n_time s) - daily_reset_time (risk_manager s) <= 86400 ->
  account_balance O (n_balance s) DOGE = Raises e ->
  0 < default 3 (risk_params !! "max_daily_loss"%string) ->
  exists s',
    update_metrics O risk_params s = (Returns tt, s')
    /\ last_balance (risk_manager s') = last_balance (risk_manager s)
    /\ daily_loss (risk_manager s') = 0
    /\ max_daily_loss_reached (risk_manager s')
       = max_daily_loss_reached (risk_manager s).
Proof.
  intros Hwin Hout Hmax.
  destruct (update_metrics_no_reset s Hwin) as (s' & Hrun & _ & _ & Hrm).
  exists s'. rewrite Hrm. cbn.
  assert (Hav : account_value_at O s = last_balance (risk_manager s))
    by (unfold account_value_at; now rewrite Hout).
  rewrite Hav.
  assert (Hloss : py_max 0 (last_balance (risk_manager s)
                            - last_balance (risk_manager s)) = 0).
  { unfold py_max. case_Qlt 0 (last_balance (risk_manager s)
                               - last_balance (risk_manager s)); [lra|].
    reflexivity. }
  rewrite Hloss. repeat split; auto.
  case_Qlt 0 (initial_balance (risk_manager s)); [|reflexivity].
  assert (Hz : 0 / initial_balance (risk_manager s) * 100 == 0) by (field; lra).
  case_Qle (default 3 (risk_params !! "max_daily_loss"%string))
           (0 / initial_balance (risk_manager s) * 100); [lra|].
  reflexivity.
Qed.

(** X13.  [get_risk_metrics] queries the balance once for the reported
    figures and once more inside [should_stop_trading].  When the clock
    and the exchange do not move during the call, the report is
    consistent: [should_stop] is true exactly when the window started
    with a positive balance and the reported [daily_loss_percent] reaches
    the reported [max_daily_loss]; and the executor is not touched. *)
Theorem get_risk_metrics_consistent s m s' :
  frozen O s ->
  get_risk_metrics O risk_params s = (Returns m, s') ->
  metrics_account_value m = account_value_at O s
  /\ (metrics_should_stop m = true
      <-> 0 < initial_balance (risk_manager s)
          /\ metrics_max_daily_loss m <= metrics_daily_loss_percent m)
  /\ executor s' = executor s
  /\ placed s' = placed s.
Proof.
  intros Hfrozen Hrun. unfold get_risk_metrics in Hrun.
  destruct (_get_current_balance_spec O s)
    as (s1 & Hrun1 & Hrm1 & Hex1 & Hpl1 & Ht1 & Hb1 & Hp1).
  rewrite (bind_returns _ _ _ _ _ Hrun1) in Hrun.
  unfold mbind at 1, M_bind at 1, get at 1 in Hrun.
  destruct (should_stop_trading_footprint O risk_params s1)
    as (s2 & Hrun2 & Hex2 & Hpl2 & (Ht2 & Hb2 & Hp2) & Hi2 & Hl2).
  rewrite (bind_returns _ _ _ _ _ Hrun2) in Hrun.
  destruct (_get_current_balance_spec O s2)
    as (s3 & Hrun3 & Hrm3 & Hex3 & Hpl3 & Ht3 & Hb3 & Hp3).
  rewrite (bind_returns _ _ _ _ _ Hrun3) in Hrun.
  unfold py_div in Hrun. unfold_monad. simpl in Hrun.
  destruct (current_price O (n_price s3)) as [p|e]; [|discriminate].
  destruct (Qeq_bool p 0); [discriminate|].
  injection Hrun as <- <-. cbn.
  assert (Hhalt : halted O risk_params s1 = halted O risk_params s).
  { apply halted_frozen; [exact Hfrozen| |now rewrite Hrm1|now rewrite Hrm1].
    unfold later. repeat split; lia. }
  rewrite Hhalt, halted_iff, Hrm1.
  split; [reflexivity|]. split; [|split; congruence].
  unfold loss_ratio_percent.
  split; intros [Hpos Hle]; (split; [exact Hpos|]).
  - apply Qlt_bool_iff in Hpos. rewrite Hpos. exact Hle.
  - assert (Hb : Qlt_bool 0 (initial_balance (risk_manager s)) = true)
      by now apply Qlt_bool_iff.
    rewrite Hb in Hle. exact Hle.
Qed.

End RiskManagerFacts.

(** ** The executor beyond the gates *)

Section ExecutorFacts.

Import Live.

Variable O : Oracle.
Variable risk_params : gmap string Q.

Ltac unfold_monad :=
  unfold mbind, M_bind, mret, M_ret, get, modify, raise, try_except, now,
    get_account_balance, get_current_price, place_order in *.

Lemma quiet_refl s : quiet s s.
Proof. split; reflexivity. Qed.

Lemma quiet_trans s1 s2 s3 : quiet s1 s2 -> quiet s2 s3 -> quiet s1 s3.
Proof. intros [? ?] [? ?]. split; congruence. Qed.

Lemma quiet_queries s s' :
  risk_manager s' = risk_manager s -> executor s' = executor s ->
  placed s' = placed s -> quiet s s'.
Proof. intros _ ? ?. split; assumption. Qed.

Lemma quiet_risk_manager r s : quiet s (set_risk_manager r s).
Proof. split; reflexivity. Qed.

(** The calls on the risk manager leave the executor and the submission
    log alone. *)
Lemma quiet_risk_calls :
  always quiet (update_metrics O risk_params)
  /\ always quiet (reset_daily_metrics O)
  /\ always quiet (should_stop_trading O risk_params)
  /\ always quiet (_can_place_order O risk_params)
  /\ forall p, always quiet (check_position_size O risk_params p).
Proof.
  split; [|split; [|split; [|split]]]; intros;
    first [ apply always_update_metrics | apply always_reset_daily_metrics
          | apply always_should_stop_trading | apply always__can_place_order
          | apply always_check_position_size ];
    auto using quiet_refl, quiet_queries, quiet_risk_manager;
    exact quiet_trans.
Qed.

(** Once the gates have passed and the size is clamped, [execute_order]
    returns a reply, whatever [place_order] and the later queries do,
    after one submission and one ledger record. *)
Lemma execute_order_after_gates order_type sz px s s1 adjusted s2 :
  _can_place_order O risk_params s = (Returns true, s1) ->
  check_position_size O risk_params sz s1 = (Returns adjusted, s2) ->
  exists reply s' o,
    execute_order O risk_params order_type sz px s = (Returns reply, s')
    /\ placed s'
       = placed s2 ++ [ {| pc_side := order_type; pc_sz := adjusted;
                           pc_ordType := "market"; pc_px := px |} ]
    /\ order_history (executor s') = order_history (executor s2) ++ [o]
    /\ size o = adjusted /\ type o = order_type /\ terminal (status o)
    /\ min_order_interval (executor s') = min_order_interval (executor s2).
Proof.
  intros Hgate Hsize. unfold execute_order.
  rewrite (bind_returns _ _ _ _ _ Hgate). cbn [negb].
  rewrite (bind_returns _ _ _ _ _ Hsize).
  unfold try_except, append_order, first_ordId, terminal.
  unfold_monad. cbn -[bool_decide].
  destruct (exchange O (length (placed s2)) _) as [result|e]; cbn -[bool_decide].
  - destruct (bool_decide (code result = Some "0"%string)); cbn.
    + destruct (data result) as [[|d l]|]; cbn;
        try (destruct (current_price O (n_price s2)); cbn);
        do 3 eexists; (split; [reflexivity|]); cbn; repeat split; auto.
    + do 3 eexists. split; [reflexivity|]. cbn. repeat split; auto.
  - do 3 eexists. split; [reflexivity|]. cbn. repeat split; auto.
Qed.

(** The effect of one [execute_order] on the submission log and the
    ledger. *)
Lemma execute_order_effect order_type sz px s :
  let s' := snd (execute_order O risk_params order_type sz px s) in
  (placed s' = placed s /\ executor s' = executor s)
  \/ (exists c o,
        placed s' = placed s ++ [c]
        /\ order_history (executor s') = order_history (executor s) ++ [o]
        /\ pc_side c = order_type /\ pc_ordType c = "market"%string
        /\ pc_px c = px /\ pc_sz c <= sz
        /\ type o = order_type /\ size o = pc_sz c /\ terminal (status o)).
Proof.
  cbv zeta.
  destruct quiet_risk_calls as (_ & _ & Hstop & Hgate & Hsize).
  destruct (_can_place_order_spec O risk_params s) as (s1 & Hrun1 & _).
  pose proof (Hgate s) as [Hex1 Hpl1]. rewrite Hrun1 in Hex1, Hpl1.
  simpl in Hex1, Hpl1.
  destruct (negb (throttled O s) && negb (halted O risk_params s)) eqn:Hopen.
  - pose proof (Hsize sz s1) as [Hex2 Hpl2].
    destruct (check_position_size O risk_params sz s1) as [[adj|e] s2] eqn:Hrun2;
      simpl in Hex2, Hpl2.
    + right.
      destruct (execute_order_after_gates order_type sz px s s1 adj s2 Hrun1 Hrun2)
        as (reply & s' & o & Hrun & Hpl & Hhist & Hsz & Hty & Hterm & _).
      rewrite Hrun. simpl. eexists _, o.
      rewrite Hpl, Hhist, Hpl2, Hpl1, Hex2, Hex1. repeat split; auto.
      simpl.
      destruct (check_position_size_outcome O risk_params sz s1)
        as (s1' & _ & _ & s2' & _ & Hout).
      rewrite Hout in Hrun2.
      destruct (current_price O (n_price s1')); [|discriminate].
      destruct (Qeq_bool _ 0); [discriminate|].
      injection Hrun2 as <- _. apply py_min_le_l.
    + left. unfold execute_order.
      rewrite (bind_returns _ _ _ _ _ Hrun1). cbn [negb].
      rewrite (bind_raises _ _ _ _ _ Hrun2). simpl. split; congruence.
  - left. unfold execute_order.
    rewrite (bind_returns _ _ _ _ _ Hrun1). cbn [negb].
    assert (Hrest : always quiet
                      (t ← now O; e ← get executor;
                       rc ← should_stop_trading O risk_params;
                       ret (Rejected (Qlt_bool (t - last_order_time e)
                                               (min_order_interval e)) rc))).
    { apply (always_bind quiet quiet_trans);
        [apply (always_now O quiet quiet_queries)|intros t].
      apply (always_bind quiet quiet_trans);
        [apply (always_get quiet quiet_refl)|intros e].
      apply (always_bind quiet quiet_trans); [exact Hstop|intros rc].
      apply (always_ret quiet quiet_refl). }
    destruct (Hrest s1) as [Hex Hpl].
    split; congruence.
Qed.

(** X14.  What one [execute_order] does to the exchange and the ledger:
    either it submits nothing and records nothing, or it calls
    [place_order] once and appends one record.  The call is a market
    order of the requested side whose size does not exceed the requested
    size, and the record carries that side and that size with status
    ["success"], ["failed"] or ["error"]. *)
Theorem execute_order_submits_at_most_once order_type sz px s :
  let s' := snd (execute_order O risk_params order_type sz px s) in
  (placed s' = placed s /\ executor s' = executor s)
  \/ (exists c o,
        placed s' = placed s ++ [c]
        /\ order_history (executor s') = order_history (executor s) ++ [o]
        /\ pc_side c = order_type /\ pc_ordType c = "market"%string
        /\ pc_px c = px /\ pc_sz c <= sz
        /\ type o = order_type /\ size o = pc_sz c /\ terminal (status o)).
Proof. apply execute_order_effect. Qed.

Lemma cancel_first_length oid h h' :
  cancel_first oid h = Some h' -> length h' = length h.
Proof.
  revert h'. induction h as [|o h IH]; intros h'; simpl; [discriminate|].
  destruct (String.eqb (order_id o) oid && is_pending (status o)).
  - intros [= <-]. reflexivity.
  - destruct (cancel_first oid h) as [h0|]; simpl; [|discriminate].
    intros [= <-]. simpl. f_equal. now apply IH.
Qed.

(** X15.  Through any call on the two objects the ledger grows by
    exactly the submissions made to the exchange, and by at most one:
    only [execute_order] contacts the exchange, and no call shortens the
    ledger. *)
Theorem ledger_tracks_submissions c s :
  let s' := perform O risk_params c s in
  exists k : nat,
    (k <= 1)%nat
    /\ length (placed s') = (length (placed s) + k)%nat
    /\ length (order_history (executor s'))
       = (length (order_history (executor s)) + k)%nat.
Proof.
  cbv zeta.
  destruct quiet_risk_calls as (Hupd & Hreset & Hstop & _ & Hsize).
  assert (Hquiet : forall s', quiet s s' ->
            exists k : nat,
              (k <= 1)%nat
              /\ length (placed s') = (length (placed s) + k)%nat
              /\ length (order_history (executor s'))
                 = (length (order_history (executor s)) + k)%nat).
  { intros s' [Hex Hpl]. exists 0%nat. rewrite Hex, Hpl. repeat split; lia. }
  destruct c; simpl.
  - apply Hquiet, Hupd.
  - apply Hquiet, Hreset.
  - apply Hquiet, Hstop.
  - apply Hquiet, Hsize.
  - destruct (execute_order_effect order_type sz px s)
      as [[Hpl Hex]|(c & o & Hpl & Hhist & _)].
    + apply Hquiet. split; assumption.
    + exists 1%nat. rewrite Hpl, Hhist, !length_app. simpl. repeat split; lia.
  - apply Hquiet, quiet_refl.
  - unfold cancel_order. unfold_monad.
    destruct (cancel_first oid (order_history (executor s))) as [h'|] eqn:Hc;
      simpl; [|apply Hquiet, quiet_refl].
    exists 0%nat. rewrite (cancel_first_length _ _ _ Hc). repeat split; lia.
Qed.

Lemma find_app_last {A} (f : A -> bool) l x :
  find f (l ++ [x])
  = match find f l with
    | Some y => Some y
    | None => if f x then Some x else None
    end.
Proof.
  induction l as [|y l IH]; simpl; [reflexivity|].
  destruct (f y); [reflexivity|exact IH].
Qed.

Lemma find_none_of_fresh oid (h : list Order) :
  Forall (fun o => order_id o <> oid) h ->
  find (fun o => String.eqb (order_id o) oid) h = None.
Proof.
  induction 1 as [|o h Ho _ IH]; simpl; [reflexivity|].
  apply String.eqb_neq in Ho. now rewrite Ho.
Qed.

(** X16.  The accepted order: when the gates pass, [place_order] returns
    code ["0"] with an order entry and the price query answers,
    [execute_order] reports success with the exchange's order identifier
    (["unknown"] when the entry or the list is missing), appends a
    ["success"] record with the clamped size and the queried price, and
    sets the throttle timer to the clock reading taken after the call.
    [get_order_status] then finds a record under that identifier: the
    new record itself when the identifier was not in the ledger
    before. *)
Theorem execute_order_when_accepted order_type sz px s c s2 result p :
  submits O risk_params order_type sz px s c s2 ->
  exchange O (length (placed s2)) c = Returns result ->
  code result = Some "0"%string ->
  data result <> Some [] ->
  current_price O (n_price s2) = Returns p ->
  let oid := match data result with
             | Some (d :: _) => default "unknown"%string d
             | _ => "unknown"%string
             end in
  exists s' o,
    execute_order O risk_params order_type sz px s
    = (Returns (Submitted oid result), s')
    /\ order_history (executor s') = order_history (executor s) ++ [o]
    /\ status o = success /\ order_id o = oid
    /\ price o = Some p /\ size o = pc_sz c
    /\ last_order_time (executor s') = time_time O (S (S (n_time s2)))
    /\ (exists found,
          fst (get_order_status oid s') = Returns (Some found)
          /\ order_id found = oid
          /\ (Forall (fun o' => order_id o' <> oid)
                     (order_history (executor s)) -> found = o)).
Proof.
  intros Hsub Hex Hcode Hdata Hprice. cbv zeta.
  destruct (submits_quiet _ _ _ _ _ _ _ _ Hsub) as [Hq1 Hq2].
  destruct Hsub as (s1 & adj & Hgate & Hsize & ->).
  unfold execute_order.
  rewrite (bind_returns _ _ _ _ _ Hgate). cbn [negb].
  rewrite (bind_returns _ _ _ _ _ Hsize).
  unfold try_except, append_order, first_ordId, get_order_status.
  unfold_monad. cbn -[bool_decide].
  rewrite Hex. cbn -[bool_decide].
  rewrite bool_decide_eq_true_2 by exact Hcode.
  destruct (data result) as [[|d l]|]; [congruence| |];
    cbn; rewrite Hprice; cbn;
    (do 2 eexists; split; [reflexivity|]; cbn; rewrite Hq1;
     repeat split; try reflexivity;
     rewrite find_app_last; cbn [order_id]; rewrite String.eqb_refl;
     destruct (find _ (order_history (executor s))) as [found|] eqn:Hfind;
     [ exists found; split; [reflexivity|]; split;
       [ apply find_some in Hfind as [_ Hid]; now apply String.eqb_eq in Hid
       | intros Hfresh; rewrite (find_none_of_fresh _ _ Hfresh) in Hfind;
         discriminate ]
     | eexists; split; [reflexivity|]; split; [reflexivity|auto] ]).
Qed.

(** X17.  Accepted by the exchange, recorded as an error: when
    [place_order] returns code ["0"] but its [data] list is empty, or the
    price query made afterwards raises, [execute_order] reports a failure
    and appends an ["error"] record, although the order was submitted;
    the throttle timer is advanced all the same. *)
Theorem execute_order_accepted_but_recorded_as_error
    order_type sz px s c s2 result :
  submits O risk_params order_type sz px s c s2 ->
  exchange O (length (placed s2)) c = Returns result ->
  code result = Some "0"%string ->
  data result = Some [] \/ (exists e, current_price O (n_price s2) = Raises e) ->
  exists err s' o,
    execute_order O risk_params order_type sz px s = (Returns (Errored err), s')
    /\ placed s' = placed s ++ [c]
    /\ order_history (executor s') = order_history (executor s) ++ [o]
    /\ status o = error
    /\ last_order_time (executor s') = time_time O (S (S (n_time s2))).
Proof.
  intros Hsub Hex Hcode Hcase.
  destruct (submits_quiet _ _ _ _ _ _ _ _ Hsub) as [Hq1 Hq2].
  destruct Hsub as (s1 & adj & Hgate & Hsize & ->).
  unfold execute_order.
  rewrite (bind_returns _ _ _ _ _ Hgate). cbn [negb].
  rewrite (bind_returns _ _ _ _ _ Hsize).
  unfold try_except, append_order, first_ordId.
  unfold_monad. cbn -[bool_decide].
  rewrite Hex. cbn -[bool_decide].
  rewrite bool_decide_eq_true_2 by exact Hcode.
  destruct Hcase as [Hdata|[e Hprice]].
  - rewrite Hdata. cbn. do 3 eexists. split; [reflexivity|]. cbn.
    rewrite Hq1, Hq2. repeat split; reflexivity.
  - destruct (data result) as [[|d l]|]; cbn; try rewrite Hprice; cbn;
      do 3 eexists; (split; [reflexivity|]); cbn;
      rewrite Hq1, Hq2; repeat split; reflexivity.
Qed.

(** X18.  [execute_order] can raise: with both gates open and the price
    feed down, the price query of [check_position_size], made outside
    the [try] block, raises through [execute_order]; nothing is
    submitted and nothing is recorded. *)
Theorem execute_order_raises_when_price_feed_down order_type sz px s e :
  throttled O s = false ->
  halted O risk_params s = false ->
  (forall n, current_price O n = Raises e) ->
  exists s',
    execute_order O risk_params order_type sz px s = (Raises e, s')
    /\ executor s' = executor s
    /\ placed s' = placed s.
Proof.
  intros Hthr Hhalt Hfeed.
  destruct quiet_risk_calls as (_ & _ & _ & Hgate & Hsize).
  destruct (_can_place_order_spec O risk_params s) as (s1 & Hrun1 & _).
  rewrite Hthr, Hhalt in Hrun1. simpl in Hrun1.
  pose proof (Hgate s) as [Hex1 Hpl1]. rewrite Hrun1 in Hex1, Hpl1.
  simpl in Hex1, Hpl1.
  destruct (check_position_size_outcome O risk_params sz s1)
    as (s1' & _ & _ & s2 & Hs2 & Hout).
  rewrite Hfeed in Hout.
  destruct Hs2 as (_ & Hex2 & Hpl2 & _).
  exists s2. unfold execute_order.
  rewrite (bind_returns _ _ _ _ _ Hrun1). cbn [negb].
  rewrite (bind_raises _ _ _ _ _ Hout).
  repeat split; congruence.
Qed.

Lemma py_slice_from_last {A} (limit : Z) (h0 : list A) (o : A) :
  (0 <= limit)%Z ->
  exists k, (k <= length h0)%nat
            /\ py_slice_from (- limit) (h0 ++ [o]) = drop k h0 ++ [o]
            /\ (limit = 0%Z -> k = 0%nat)
            /\ ((0 < limit)%Z -> k = (length (h0 ++ [o]) - Z.to_nat limit)%nat).
Proof.
  intros Hlim. unfold py_slice_from. rewrite length_app. simpl.
  destruct (- limit <? 0)%Z eqn:Hneg.
  - apply Z.ltb_lt in Hneg.
    exists (Z.to_nat (Z.max 0 (Z.of_nat (length h0 + 1) + - limit))).
    assert (Hk : (Z.to_nat (Z.max 0 (Z.of_nat (length h0 + 1) + - limit))
                  <= length h0)%nat) by lia.
    repeat split; [exact Hk|now apply drop_app_le|lia|lia].
  - apply Z.ltb_ge in Hneg. assert (limit = 0%Z) by lia. subst limit.
    exists 0%nat.
    replace (Z.to_nat (Z.min (- 0) (Z.of_nat (length h0 + 1)))) with 0%nat by lia.
    repeat split; [lia|lia].
Qed.

(** X19.  The rows of the trade history when the most recent order has a
    price (it succeeded): with [limit = 0] they are the whole ledger,
    not an empty table, because the slice [order_history[-0:]] starts at
    the beginning; with [limit >= 1] they are the last [limit] records,
    or all of them when the ledger is shorter.  The call does not change
    the state. *)
Theorem trade_history_rows_by_limit limit s h0 o :
  order_history (executor s) = h0 ++ [o] ->
  has_price o = true ->
  (0 <= limit)%Z ->
  exists rows,
    get_trade_history_rows limit s = (Returns rows, s)
    /\ (limit = 0%Z -> rows = order_history (executor s))
    /\ ((0 < limit)%Z ->
        rows = drop (length (order_history (executor s)) - Z.to_nat limit)
                    (order_history (executor s))
        /\ length rows
           = Nat.min (Z.to_nat limit) (length (order_history (executor s)))).
Proof.
  intros Hh Hprice Hlim.
  destruct (py_slice_from_last limit h0 o Hlim) as (k & Hk & Hslice & H0 & Hpos).
  unfold get_trade_history_rows. unfold_monad. rewrite Hh.
  assert (Hne : forall (X : Type) (a b : X),
            match h0 ++ [o] with [] => a | _ :: _ => b end = b)
    by (intros; destruct h0; reflexivity).
  rewrite Hne, Hslice.
  assert (Hex : existsb has_price (drop k h0 ++ [o]) = true).
  { apply existsb_exists. exists o. split; [|exact Hprice].
    apply in_or_app. right. left. reflexivity. }
  rewrite Hex. exists (drop k h0 ++ [o]). split; [reflexivity|]. split.
  - intros Hz. rewrite (H0 Hz). now rewrite drop_0.
  - intros Hp. rewrite (Hpos Hp). rewrite <- drop_app_le by (rewrite <- Hpos; auto).
    split; [reflexivity|]. rewrite length_drop. lia.
Qed.

(** X20.  With a ledger that is not empty and holds no record with a
    price (every order so far failed or ended in an error), the trade
    history cannot be built: the column selection raises [KeyError],
    whatever the limit. *)
Theorem trade_history_without_success limit s :
  order_history (executor s) <> [] ->
  Forall (fun o => has_price o = false) (order_history (executor s)) ->
  get_trade_history_rows limit s = (Raises "KeyError", s).
Proof.
  intros Hne Hall.
  unfold get_trade_history_rows. unfold_monad.
  destruct (order_history (executor s)) as [|x l] eqn:Hh; [congruence|].
  assert (Hex : existsb has_price (py_slice_from (- limit) (x :: l)) = false).
  { apply not_true_is_false. intros Htrue.
    apply existsb_exists in Htrue as (o & Hin & Hp).
    unfold py_slice_from in Hin.
    rewrite Forall_forall in Hall.
    assert (Hin' : o ∈ x :: l).
    { eapply subseteq_drop. apply list_elem_of_In. exact Hin. }
    specialize (Hall o Hin'). simpl in Hall. congruence. }
  now rewrite Hex.
Qed.

(** [get_order_status] does not raise and does not change the
    state.  It answers "not found" exactly when no record carries the
    identifier; otherwise it returns the oldest record that carries it,
    so that for the identifiers ["failed"] and ["error"], shared by all
    failed attempts, the first attempt is reported. *)
Lemma get_order_status_finds_oldest oid s :
  exists r,
    get_order_status oid s = (Returns r, s)
    /\ match r with
       | None => Forall (fun o => order_id o <> oid) (order_history (executor s))
       | Some found =>
           order_id found = oid
           /\ exists older newer,
                order_history (executor s) = older ++ found :: newer
                /\ Forall (fun o => order_id o <> oid) older
       end.
Proof.
  unfold get_order_status, get. eexists. split; [reflexivity|].
  induction (order_history (executor s)) as [|o h IH]; simpl; [constructor|].
  destruct (String.eqb (order_id o) oid) eqn:Hid.
  - apply String.eqb_eq in Hid. split; [exact Hid|].
    exists [], h. split; [reflexivity|constructor].
  - apply String.eqb_neq in Hid.
    destruct (find _ h) as [found|].
    + destruct IH as (Hf & older & newer & -> & Hold).
      split; [exact Hf|]. exists (o :: older), newer.
      split; [reflexivity|]. constructor; assumption.
    + constructor; assumption.
Qed.

End ExecutorFacts.

(** ** The replay beyond solvency *)

Section ReplayViewFacts.

Import SignalCombiner Backtester.

(** X21.  No look-ahead in the market view of the replay: for a bar
    [idx] of the frame and [limit >= 1], [get_candlesticks] returns the
    last [limit] bars up to and including bar [idx] (all of them when
    there are fewer), its last row is bar [idx] itself, and the answer is
    the same for any frame with the same bars up to [idx], whatever comes
    after. *)
Theorem mock_candlesticks_no_look_ahead df idx limit :
  (idx < length df)%nat -> (1 <= limit)%Z ->
  mock_get_candlesticks df idx limit
  = map ohlcv (drop (idx + 1 - Z.to_nat limit) (take (idx + 1) df))
  /\ length (mock_get_candlesticks df idx limit)
     = Nat.min (Z.to_nat limit) (idx + 1)
  /\ last (mock_get_candlesticks df idx limit) = ohlcv <$> df !! idx
  /\ (forall df', take (idx + 1) df' = take (idx + 1) df ->
        mock_get_candlesticks df' idx limit = mock_get_candlesticks df idx limit).
Proof.
  intros Hidx Hlim.
  assert (Hstart : Z.to_nat (Z.max 0 (Z.of_nat idx - limit + 1))
                   = (idx + 1 - Z.to_nat limit)%nat) by lia.
  assert (Heq : forall d : list Bar,
            mock_get_candlesticks d idx limit
            = map ohlcv (drop (idx + 1 - Z.to_nat limit) (take (idx + 1) d))).
  { intros d. unfold mock_get_candlesticks. cbv zeta. rewrite Hstart.
    f_equal. rewrite take_drop_commute. f_equal. f_equal. lia. }
  split; [apply Heq|]. split; [|split].
  - rewrite Heq, length_map, length_drop, length_take. lia.
  - rewrite Heq. change (map ohlcv) with (fmap (M:=list) ohlcv). rewrite fmap_last.
    destruct (lookup_lt_is_Some_2 df idx Hidx) as [b Hb]. rewrite Hb.
    replace (idx + 1)%nat with (S idx) by lia.
    rewrite (take_S_r df idx b Hb).
    rewrite drop_app_le by (rewrite length_take; lia).
    now rewrite last_snoc.
  - intros df' Hsame. now rewrite !Heq, Hsame.
Qed.

Lemma cummax_from_dominates m values :
  0 < m ->
  Forall2 (fun v peak => 0 < peak /\ v <= peak) values (cummax_from m values).
Proof.
  revert m. induction values as [|v rest IH]; intros m Hm; simpl; constructor.
  - case_Qlt m v; split; lra.
  - apply IH. case_Qlt m v; lra.
Qed.

Lemma drawdown_nonpositive values :
  Forall (fun v => 0 < v) values ->
  Forall (fun d => d <= 0) (drawdown values).
Proof.
  intros Hpos. unfold drawdown, cummax.
  destruct values as [|v rest]; [constructor|].
  inversion Hpos as [|? ? Hv Hrest]; subst. simpl. constructor.
  - assert (v / v == 1) by (field; lra). lra.
  - pose proof (cummax_from_dominates v rest Hv) as Hdom.
    revert Hdom. generalize (cummax_from v rest). clear.
    induction rest as [|x rest IH]; intros peaks Hdom;
      inversion Hdom as [|? p ? peaks' [Hp Hle] Hdom']; subst; simpl;
      constructor.
    + assert (x / p <= 1) by (apply Qle_shift_div_r; lra). lra.
    + now apply IH.
Qed.

Lemma series_min_le x rest bound :
  x <= bound -> series_min x rest <= bound.
Proof.
  unfold series_min. revert x. induction rest as [|v rest IH]; intros x Hx; simpl.
  - exact Hx.
  - apply IH. case_Qlt v x; lra.
Qed.

(** X22.  The drawdown of a series of positive portfolio values is
    never positive, so the maximum drawdown, its minimum in percent, is
    at most 0; only the empty series has none. *)
Theorem max_drawdown_nonpositive values :
  Forall (fun v => 0 < v) values ->
  Forall (fun d => d <= 0) (drawdown values)
  /\ match max_drawdown values with
     | Some worst => worst <= 0 /\ values <> []
     | None => values = []
     end.
Proof.
  intros Hpos. pose proof (drawdown_nonpositive values Hpos) as Hdd.
  split; [exact Hdd|]. unfold max_drawdown.
  destruct values as [|v rest]; [reflexivity|].
  unfold drawdown, cummax in *. simpl in *.
  inversion Hdd as [|? ? Hd _]; subst.
  split; [|discriminate].
  pose proof (series_min_le _ (zip_with (fun v0 m => v0 / m - 1) rest
                                        (cummax_from v rest)) 0 Hd).
  lra.
Qed.

(** X23.  What a bar's trade costs: a bar without trade leaves position,
    cash and log as they were; an executed trade lowers the equity,
    valued at the bar's close, by exactly the fee
    [size * price * commission].  The ["commission"] entry recorded for a
    sell is that fee; the one recorded for a buy is computed on the cost,
    fee included, and exceeds the fee charged by the factor
    [1 + commission]. *)
Theorem trade_costs_its_fee combined b position cash_now log :
  let after := trade_at combined b position cash_now log in
  let position' := fst (fst after) in
  let cash' := snd (fst after) in
  (after = (position, cash_now, log))
  \/ (exists t,
        snd after = log ++ [t]
        /\ trade_value t = trade_size t * close b
        /\ fee_charged t == trade_size t * close b * commission
        /\ cash' + position' * close b
           == cash_now + position * close b - fee_charged t
        /\ match trade_type t with
           | sell => trade_commission t == fee_charged t
           | buy => trade_commission t == fee_charged t * (1 + commission)
           end).
Proof.
  cbv zeta. unfold trade_at.
  destruct (should_trade combined); [|left; reflexivity].
  set (size := calculate_position_size _ _ _).
  destruct (is_buy _ && Qle_bool (size * close b * (1 + commission)) cash_now).
  - right. eexists. split; [reflexivity|]. unfold fee_charged. cbn.
    repeat split; ring.
  - destruct (is_sell _ && Qle_bool size position); [|left; reflexivity].
    right. eexists. split; [reflexivity|]. unfold fee_charged. cbn.
    repeat split; ring.
Qed.

End ReplayViewFacts.

Section ReplayRunFacts.

Import SignalCombiner Backtester.

Variable weights : gmap string Q.
Variable signals : nat -> list Signal.

Lemma zip_seq_indices {A} start n (bars : list A) :
  Forall (fun ib => (start <= fst ib)%nat) (zip (seq start n) bars).
Proof.
  revert start bars. induction n as [|n IH]; intros start bars; simpl;
    [constructor|].
  destruct bars as [|b bars]; simpl; constructor; [simpl; lia|].
  eapply Forall_impl; [apply IH|]. simpl. intros; lia.
Qed.

(** The bars the replay visits have an index of 50 or more. *)
Lemma replay_range_indices df :
  Forall (fun ib => (50 <= fst ib)%nat) (replay_range df).
Proof. apply zip_seq_indices. Qed.

Lemma replay_range_length df :
  length (replay_range df) = (length df - 50)%nat.
Proof.
  unfold replay_range. rewrite length_zip_with, length_seq, length_drop. lia.
Qed.

(** One bar: at most one more trade, series of the same length, and the
    entries before the bar's index untouched. *)
Lemma bar_step_frame s i b :
  let s' := bar_step weights signals s (i, b) in
  (length (trade_log s') <= S (length (trade_log s)))%nat
  /\ length (positions s') = length (positions s)
  /\ length (cash s') = length (cash s)
  /\ length (portfolio_value s') = length (portfolio_value s)
  /\ (forall k, (k <= i)%nat ->
        take k (positions s') = take k (positions s)
        /\ take k (cash s') = take k (cash s)
        /\ take k (portfolio_value s') = take k (portfolio_value s)).
Proof.
  cbv zeta. unfold bar_step.
  pose proof (trade_at_covered (combine_signals weights (signals i)) b
                (current_position s) (current_cash s) (trade_log s)) as Hcov.
  destruct (trade_at _ _ _ _ _) as [[position cash_now] log].
  unfold covered_step in Hcov. simpl.
  rewrite !length_insert. repeat split; try reflexivity.
  - destruct Hcov as [(_ & _ & ->)|[(t & -> & _)|(t & -> & _)]];
      rewrite ?length_app; simpl; lia.
  - now rewrite take_insert_ge.
  - now rewrite take_insert_ge.
  - now rewrite take_insert_ge.
Qed.

Lemma fold_bar_step_frame bars s :
  Forall (fun ib => (50 <= fst ib)%nat) bars ->
  let s' := fold_left (bar_step weights signals) bars s in
  (length (trade_log s') <= length (trade_log s) + length bars)%nat
  /\ length (positions s') = length (positions s)
  /\ length (cash s') = length (cash s)
  /\ take 50 (positions s') = take 50 (positions s)
  /\ take 50 (cash s') = take 50 (cash s)
  /\ take 50 (portfolio_value s') = take 50 (portfolio_value s).
Proof.
  revert s. induction bars as [|[i b] bars IH]; intros s Hall;
    cbn [fold_left length] in *.
  - cbv zeta. repeat split; lia.
  - cbv zeta. inversion Hall as [|? ? Hi Hrest]; subst. simpl in Hi.
    destruct (IH (bar_step weights signals s (i, b)) Hrest)
      as (Hn & Hlp & Hlc & Htp & Htc & Htv).
    destruct (bar_step_frame s i b) as (Hn1 & Hlp1 & Hlc1 & _ & Hkeep).
    destruct (Hkeep 50%nat Hi) as (Hk1 & Hk2 & Hk3).
    repeat split; try congruence. lia.
Qed.

(** X24.  The shape of a report: at most one trade per replayed bar, so
    [num_trades <= len(df) - 50]; series as long as the frame; and the
    first 50 bars, which are not replayed, hold no position and the whole
    initial capital. *)
Theorem report_shape df initial_capital r :
  run_backtest weights signals df initial_capital = Returns r ->
  (num_trades r <= length df - 50)%nat
  /\ num_trades r = length (res_trade_log r)
  /\ length (res_positions r) = length df
  /\ length (res_cash r) = length df
  /\ take 50 (res_positions r) = replicate 50 0
  /\ take 50 (res_cash r) = replicate 50 initial_capital
  /\ take 50 (res_portfolio_value r) = replicate 50 initial_capital.
Proof.
  unfold run_backtest. intros Hr.
  destruct (length df <? 50)%nat eqn:Hlen; [discriminate|].
  apply Nat.ltb_ge in Hlen.
  destruct (trade_statistics _) as [wr avg]. injection Hr as <-. simpl.
  destruct (fold_bar_step_frame (replay_range df) (sim0 df initial_capital)
              (replay_range_indices df))
    as (Hn & Hlp & Hlc & Htp & Htc & Htv).
  fold (replay weights signals df initial_capital) in *.
  rewrite replay_range_length in Hn. simpl in *.
  rewrite length_replicate in Hlp, Hlc.
  rewrite Htp, Htc, Htv, !take_replicate.
  replace (Nat.min 50 (length df)) with 50%nat by lia.
  repeat split; auto.
Qed.

Lemma fold_bar_step_idle bars s cap :
  Forall (fun ib => should_trade (combine_signals weights (signals (fst ib))) = false)
         bars ->
  current_position s = 0 -> current_cash s = cap -> trade_log s = [] ->
  Forall (fun v => v == cap) (portfolio_value s) ->
  Forall (fun v => v = cap) (cash s) ->
  Forall (fun v => v = 0) (positions s) ->
  let s' := fold_left (bar_step weights signals) bars s in
  trade_log s' = []
  /\ Forall (fun v => v == cap) (portfolio_value s')
  /\ Forall (fun v => v = cap) (cash s')
  /\ Forall (fun v => v = 0) (positions s').
Proof.
  revert s. induction bars as [|[i b] bars IH];
    intros s Hall Hpos Hcash Hlog Fv Fc Fp; simpl; [auto|].
  inversion Hall as [|? ? Hidle Hrest]; subst. simpl in Hidle.
  apply IH; try exact Hrest;
    unfold bar_step, trade_at; rewrite Hidle; simpl; auto.
  - apply Forall_insert; [exact Fv|]. rewrite Hpos. ring.
  - apply Forall_insert; [exact Fc|reflexivity].
  - apply Forall_insert; [exact Fp|exact Hpos].
Qed.

(** X25.  A replay in which no bar passes [should_trade] (for instance
    because every producer abstains) trades nothing: the trade log is
    empty, cash stays at the initial capital and the position at 0 on
    every bar, the portfolio value is the initial capital throughout,
    the win rate and the average return are 0, and, for a non-zero
    capital, so is the total return. *)
Theorem idle_replay_returns_the_capital df initial_capital :
  (50 <= length df)%nat ->
  (forall i, should_trade (combine_signals weights (signals i)) = false) ->
  exists r,
    run_backtest weights signals df initial_capital = Returns r
    /\ res_trade_log r = [] /\ num_trades r = 0%nat
    /\ Forall (fun v => v = initial_capital) (res_cash r)
    /\ Forall (fun v => v = 0) (res_positions r)
    /\ Forall (fun v => v == initial_capital) (res_portfolio_value r)
    /\ final_value r == initial_capital
    /\ win_rate r = 0 /\ avg_return_per_trade r = 0
    /\ (~ initial_capital == 0 -> total_return r == 0).
Proof.
  intros Hlen Hidle.
  destruct (fold_bar_step_idle (replay_range df) (sim0 df initial_capital)
              initial_capital)
    as (Hlog & Fv & Fc & Fp); simpl; auto.
  { apply Forall_forall. intros; apply Hidle. }
  { apply Forall_replicate. reflexivity. }
  { apply Forall_replicate. reflexivity. }
  { apply Forall_replicate. reflexivity. }
  fold (replay weights signals df initial_capital) in *.
  unfold run_backtest.
  assert (Hge : (length df <? 50)%nat = false) by now apply Nat.ltb_ge.
  rewrite Hge, Hlog. simpl.
  assert (Hfinal : List.last (portfolio_value
                                (replay weights signals df initial_capital))
                             initial_capital == initial_capital).
  { revert Fv. generalize (portfolio_value
                             (replay weights signals df initial_capital)).
    induction 1 as [|v l Hv _ IH]; simpl; [reflexivity|].
    destruct l; [exact Hv|exact IH]. }
  eexists. split; [reflexivity|]. simpl.
  repeat split; auto.
  intros Hcap. rewrite Hfinal. field. exact Hcap.
Qed.

(** An adjacent buy-then-sell pair ends on a sell, which cannot start the
    next pair: the pairs counted by the loop are disjoint. *)
Lemma pair_loop_count log w t :
  (fst (pair_loop log w t)
   <= w + (length log
           - match log with
             | first :: _ => if is_sell (trade_type first) then 1 else 0
             | [] => 0
             end) / 2)%nat.
Proof.
  revert w t. induction log as [|prev log IH]; intros w t; [simpl; lia|].
  destruct log as [|cur rest].
  - simpl. lia.
  - change (pair_loop (prev :: cur :: rest) w t)
      with (if is_sell (trade_type cur) && is_buy (trade_type prev)
            then pair_loop (cur :: rest)
                   (if Qlt_bool 0 ((trade_price cur - trade_price prev)
                                   / trade_price prev * 100)
                    then S w else w)
                   (t + (trade_price cur - trade_price prev)
                        / trade_price prev * 100)
            else pair_loop (cur :: rest) w t).
    destruct (trade_type cur), (trade_type prev); cbn [is_sell is_buy andb];
      match goal with
      | |- context [pair_loop _ ?w' ?t'] => specialize (IH w' t')
      end;
      cbn [is_sell] in IH; cbn [length] in *;
      try (destruct (Qlt_bool 0 _));
      repeat match goal with
             | H : context [(?a / 2)%nat] |- _ =>
                 pose proof (Nat.div_mod_eq a 2);
                 pose proof (Nat.mod_upper_bound a 2 ltac:(lia));
                 generalize dependent (a / 2)%nat; intros
             | |- context [(?a / 2)%nat] =>
                 pose proof (Nat.div_mod_eq a 2);
                 pose proof (Nat.mod_upper_bound a 2 ltac:(lia));
                 generalize dependent (a / 2)%nat; intros
             end;
      lia.
Qed.

(** X26.  For every trade log the reported [win_rate] lies between 0 and
    100: the winning pairs are adjacent buy-then-sell pairs, which are
    disjoint, so there are at most [num_trades // 2] of them. *)
Theorem win_rate_is_a_percentage log :
  0 <= fst (trade_statistics log) /\ fst (trade_statistics log) <= 100.
Proof.
  unfold trade_statistics.
  destruct (0 <? length log)%nat; [|simpl; split; lra].
  pose proof (pair_loop_count log 0%nat 0) as Hcount.
  destruct (pair_loop log 0 0) as [winning total]. cbn [fst] in Hcount. simpl.
  destruct (1 <? length log)%nat eqn:Hlen; [|split; lra].
  apply Nat.ltb_lt in Hlen.
  assert (Hhalf : (1 <= length log / 2)%nat).
  { apply Nat.div_le_lower_bound; lia. }
  assert (Hwin : (winning <= length log / 2)%nat).
  { etransitivity; [exact Hcount|]. apply Nat.Div0.div_le_mono. lia. }
  unfold half_trades.
  set (h := (length log / 2)%nat) in *.
  assert (Hq : 0 < inject_Z (Z.of_nat h)).
  { replace 0 with (inject_Z 0) by reflexivity. rewrite <- Zlt_Qlt. lia. }
  assert (Hw0 : 0 <= inject_Z (Z.of_nat winning)).
  { replace 0 with (inject_Z 0) by reflexivity. rewrite <- Zle_Qle. lia. }
  assert (Hwh : inject_Z (Z.of_nat winning) <= inject_Z (Z.of_nat h)).
  { rewrite <- Zle_Qle. lia. }
  split.
  - apply Qmult_le_0_compat; [|lra]. apply Qle_shift_div_l; lra.
  - assert (inject_Z (Z.of_nat winning) / inject_Z (Z.of_nat h) <= 1)
      by (apply Qle_shift_div_r; lra).
    lra.
Qed.

End ReplayRunFacts.

(** ** The configuration manager *)

Section ConfigFacts.

Import ConfigManager.

(** X27.  Switching a configured strategy: for a strategy that has a
    parameter dictionary, [update_strategy_status] makes
    [is_strategy_enabled] answer the new status, does not raise, and
    writes the change to the file. *)
Theorem toggled_strategy_reads_back strategy_name enabled m params :
  strategy_params (config m) !! strategy_name = Some params ->
  is_strategy_enabled (update_strategy_status strategy_name enabled m)
                      strategy_name
  = Returns (VBool enabled)
  /\ saved (update_strategy_status strategy_name enabled m)
     = config (update_strategy_status strategy_name enabled m).
Proof.
  intros Hparams. unfold update_strategy_status, is_strategy_enabled.
  rewrite Hparams. cbn [config saved active_strategies strategy_params].
  split; [|reflexivity].
  rewrite !lookup_insert_eq.
  destruct enabled; cbn [andb negb].
  - destruct (bool_decide (strategy_name ∈ active_strategies (config m))) eqn:Hin;
      cbn [negb].
    + now rewrite Hin.
    + rewrite bool_decide_eq_true_2; [reflexivity|].
      apply elem_of_app. right. now apply list_elem_of_singleton.
  - destruct (bool_decide (strategy_name ∈ active_strategies (config m))) eqn:Hin.
    + destruct (bool_decide (strategy_name ∈ remove_first _ _)); reflexivity.
    + now rewrite Hin.
Qed.

(** X28.  Enabling a strategy without a parameter dictionary: the name
    is added to [active_strategies] in memory, the file is not written,
    and from then on [is_strategy_enabled] raises [KeyError] for that
    name instead of answering. *)
Theorem enabling_unknown_strategy_breaks_the_query strategy_name m :
  strategy_params (config m) !! strategy_name = None ->
  strategy_name ∈ active_strategies
                    (config (update_strategy_status strategy_name true m))
  /\ saved (update_strategy_status strategy_name true m) = saved m
  /\ is_strategy_enabled (update_strategy_status strategy_name true m)
                         strategy_name
     = Raises "KeyError".
Proof.
  intros Hparams. unfold update_strategy_status, is_strategy_enabled.
  rewrite Hparams. cbn [config saved active_strategies strategy_params andb negb].
  assert (Hin : strategy_name
                ∈ (if negb (bool_decide (strategy_name ∈ active_strategies (config m)))
                   then active_strategies (config m) ++ [strategy_name]
                   else active_strategies (config m))).
  { destruct (bool_decide (strategy_name ∈ active_strategies (config m))) eqn:Hb;
      cbn [negb].
    - now apply bool_decide_eq_true in Hb.
    - apply elem_of_app. right. now apply list_elem_of_singleton. }
  split; [exact Hin|]. split; [reflexivity|].
  rewrite bool_decide_eq_true_2 by exact Hin. now rewrite Hparams.
Qed.

Lemma elem_of_remove_first_ne x y l :
  x <> y -> y ∈ remove_first x l <-> y ∈ l.
Proof.
  intros Hne. induction l as [|z l IH]; simpl; [reflexivity|].
  destruct (bool_decide (z = x)) eqn:Hz.
  - apply bool_decide_eq_true in Hz. subst z.
    rewrite elem_of_cons. split; [auto|intros [?|?]; [congruence|assumption]].
  - rewrite !elem_of_cons, IH. reflexivity.
Qed.

(** X29.  Switching one strategy leaves the others alone: for any other
    name [is_strategy_enabled] answers, or raises, as before; and the
    risk parameters are not touched. *)
Theorem toggling_leaves_other_strategies strategy_name enabled other m :
  other <> strategy_name ->
  is_strategy_enabled (update_strategy_status strategy_name enabled m) other
  = is_strategy_enabled m other
  /\ get_risk_params (update_strategy_status strategy_name enabled m)
     = get_risk_params m.
Proof.
  intros Hne. unfold update_strategy_status, is_strategy_enabled, get_risk_params.
  set (active' := if enabled && _ then _ else _).
  assert (Hactive : bool_decide (other ∈ active')
                    = bool_decide (other ∈ active_strategies (config m))).
  { apply bool_decide_ext. subst active'.
    destruct (enabled && _).
    - rewrite elem_of_app, list_elem_of_singleton. tauto.
    - destruct (negb enabled && _); [|reflexivity].
      apply elem_of_remove_first_ne. congruence. }
  destruct (strategy_params (config m) !! strategy_name) as [params|];
    cbn [config active_strategies strategy_params risk_management];
    rewrite Hactive; (split; [|reflexivity]).
  - rewrite lookup_insert_ne by congruence. reflexivity.
  - reflexivity.
Qed.

(** The risk parameters after an update: the new entries win, the other
    entries stay. *)
Lemma updated_risk_params_lookup params m key :
  get_risk_params (update_risk_params params m) !! key
  = match params !! key with
    | Some v => Some v
    | None => get_risk_params m !! key
    end.
Proof.
  unfold get_risk_params, update_risk_params. cbn.
  rewrite lookup_union. destruct (params !! key), (risk_management (config m) !! key);
    reflexivity.
Qed.

End ConfigFacts.

(** ** The price cache *)

Section PriceFeedFacts.

Import PriceFeed.

(** What [get_current_price] serves.  A price it returns is either
    the one just fetched, or the cached one, and then the cached price is
    positive and less than 300 seconds old; no request is sent exactly
    when a positive cached price is less than 5 seconds old; and it
    raises only when the request failed and the cache holds no positive
    price younger than 300 seconds. *)
Lemma served_price_is_fresh_or_recent cache current_time fetch :
  let served := get_current_price cache current_time fetch in
  (requested served = false
   <-> current_time - cached_at cache < 5 /\ 0 < cached_price cache)
  /\ match answer served with
     | Returns p =>
         (fetch = Returns p /\ requested served = true)
         \/ (p = cached_price cache /\ 0 < p
             /\ current_time - cached_at cache < 300
             /\ cache_after served = cache)
     | Raises e =>
         fetch = Raises e
         /\ (cached_price cache <= 0 \/ 300 <= current_time - cached_at cache)
         /\ cache_after served = cache
     end.
Proof.
  cbv zeta. unfold get_current_price.
  case_Qlt (current_time - cached_at cache) 5;
    case_Qlt 0 (cached_price cache); cbn [andb];
    try (destruct fetch as [price|e]; cbn [andb]);
    try (case_Qlt (current_time - cached_at cache) 300); cbn;
    (split; [split; [try discriminate; auto; intros [? ?]; lra
                    |try (intros [? ?]; lra); auto]|]);
    try (left; split; reflexivity);
    try (right; repeat split; auto; lra);
    try (repeat split; auto; lra).
Qed.

(** X30.  A fetched positive price is served again without a request for
    the next 5 seconds, serves as a fallback for a failing exchange up to
    300 seconds, and is given up after that: the call then raises the
    exception of the request. *)
Theorem cached_price_expires cache t0 price t e :
  let cache1 := cache_after (get_current_price cache t0 (Returns price)) in
  requested (get_current_price cache t0 (Returns price)) = true ->
  0 < price -> t0 <= t ->
  (t - t0 < 5 ->
     forall fetch,
       answer (get_current_price cache1 t fetch) = Returns price
       /\ requested (get_current_price cache1 t fetch) = false)
  /\ (t - t0 < 300 ->
        answer (get_current_price cache1 t (Raises e)) = Returns price)
  /\ (300 <= t - t0 ->
        answer (get_current_price cache1 t (Raises e)) = Raises e).
Proof.
  cbv zeta. intros Hreq Hprice Ht.
  assert (Hcache : cache_after (get_current_price cache t0 (Returns price))
                   = {| cached_price := price; cached_at := t0 |}).
  { unfold get_current_price in *.
    destruct (Qlt_bool (t0 - cached_at cache) 5 && Qlt_bool 0 (cached_price cache));
      [discriminate|reflexivity]. }
  rewrite Hcache. unfold get_current_price. cbn [cached_price cached_at].
  assert (Hp : Qlt_bool 0 price = true) by now apply Qlt_bool_iff.
  rewrite Hp. repeat split.
  - case_Qlt (t - t0) 5; [reflexivity|lra].
  - case_Qlt (t - t0) 5; [reflexivity|lra].
  - intros Hfresh. case_Qlt (t - t0) 5; cbn; [reflexivity|].
    case_Qlt (t - t0) 300; [reflexivity|lra].
  - intros Hold. case_Qlt (t - t0) 5; [lra|]. cbn.
    case_Qlt (t - t0) 300; [lra|reflexivity].
Qed.

End PriceFeedFacts.

(** ** Concrete cases *)

Section FurtherCases.

Import SignalCombiner Live Backtester PriceFeed Scenario.



Lemma traded_signal_has_a_side_witness :
  determine_order_type
    (final_signal (combine_signals ∅ [confident "bollinger" (- (8 # 10))]))
  = sell.
Proof.
  destruct (traded_signal_has_a_side
              (combine_signals ∅ [confident "bollinger" (- (8 # 10))]) (3 # 10))
    as [[_ Hpos]|[Hsell _]].
  - vm_compute. reflexivity.
  - vm_compute. reflexivity.
  - vm_compute in Hpos. discriminate.
  - exact Hsell.
Defined.

Lemma position_size_of_bounded_signal_witness :
  calculate_position_size (9 # 10) 1000 (1 # 10) * (1 # 10) <= (2 # 100) * 1000.
Proof.
  destruct (position_size_of_bounded_signal (9 # 10) 1000 (1 # 10))
    as (_ & _ & H).
  - vm_compute. discriminate.
  - vm_compute. reflexivity.
  - vm_compute. discriminate.
  - exact H.
Defined.

Lemma stop_loss_and_take_profit_bracket_witness :
  calculate_stop_loss ∅ (1 # 10) < 1 # 10
  /\ 1 # 10 < calculate_take_profit ∅ (1 # 10).
Proof.
  destruct (stop_loss_and_take_profit_bracket ∅ (1 # 10))
    as (_ & _ & Hlow & Hhigh); try (vm_compute; reflexivity).
  split; assumption.
Defined.

Lemma check_position_size_caps_witness :
  100 <= 100
  /\ executor (snd (check_position_size standing_clock ∅ 100 ready))
     = executor ready.
Proof.
  destruct (check_position_size_caps standing_clock ∅ 100 ready 100
              (snd (check_position_size standing_clock ∅ 100 ready)))
    as (Hle & _ & _ & Hex & _).
  - vm_compute. reflexivity.
  - split; assumption.
Defined.

Lemma breaker_off_without_starting_balance_witness :
  (exists s', should_stop_trading standing_clock ∅ blank = (Returns false, s')
              /\ risk_manager s' = risk_manager blank)
  /\ initial_balance (risk_manager (session_start outage blank)) = 0.
Proof.
  destruct (breaker_off_without_starting_balance standing_clock ∅) as [Hoff _].
  destruct (breaker_off_without_starting_balance outage ∅) as [_ Hstart].
  split.
  - apply Hoff. vm_compute. discriminate.
  - apply (Hstart blank "offline"%string). reflexivity.
Defined.

Lemma update_metrics_within_window_witness :
  exists s',
    update_metrics standing_clock ∅ ready = (Returns tt, s')
    /\ initial_balance (risk_manager s') = initial_balance (risk_manager ready)
    /\ executor s' = executor ready.
Proof.
  destruct (update_metrics_within_window standing_clock ∅ ready)
    as (s' & Hrun & Hinit & _ & _ & _ & _ & _ & Hex & _).
  - vm_compute. discriminate.
  - exists s'. repeat split; assumption.
Defined.

Lemma update_metrics_during_outage_witness :
  exists s',
    update_metrics outage ∅ ready = (Returns tt, s')
    /\ last_balance (risk_manager s') = 1000
    /\ max_daily_loss_reached (risk_manager s') = false.
Proof.
  destruct (update_metrics_during_outage outage ∅ ready "offline")
    as (s' & Hrun & Hlast & _ & Hflag).
  - vm_compute. discriminate.
  - reflexivity.
  - vm_compute. reflexivity.
  - exists s'. repeat split; assumption.
Defined.

Lemma get_risk_metrics_consistent_witness :
  exists m,
    fst (get_risk_metrics standing_clock ∅ ready) = Returns m
    /\ metrics_account_value m = account_value_at standing_clock ready.
Proof.
  eexists. split; [vm_compute; reflexivity|].
  eapply (get_risk_metrics_consistent standing_clock ∅ ready _
            (snd (get_risk_metrics standing_clock ∅ ready))).
  - repeat split; intros; reflexivity.
  - vm_compute. reflexivity.
Defined.

Lemma execute_order_when_accepted_witness :
  exists s' o,
    fst (execute_order exchange_accepting ∅ "buy" 100 None ready)
    = Returns (Submitted "4711"
                 {| code := Some "0"%string; msg := None;
                    data := Some [Some "4711"%string] |})
    /\ order_history (executor s') = [o]
    /\ status o = success /\ price o = Some (1 # 10).
Proof.
  destruct (execute_order_when_accepted exchange_accepting ∅ "buy" 100 None ready
              {| pc_side := "buy"; pc_sz := 100; pc_ordType := "market";
                 pc_px := None |}
              (snd (check_position_size exchange_accepting ∅ 100
                      (snd (_can_place_order exchange_accepting ∅ ready))))
              {| code := Some "0"%string; msg := None;
                 data := Some [Some "4711"%string] |}
              (1 # 10))
    as (s' & o & Hrun & Hhist & Hstatus & _ & Hprice & _).
  - do 2 eexists. repeat split; vm_compute; reflexivity.
  - reflexivity.
  - reflexivity.
  - discriminate.
  - reflexivity.
  - exists s', o. rewrite Hrun. repeat split; assumption.
Defined.

Lemma execute_order_accepted_but_recorded_as_error_witness :
  exists err s' o,
    execute_order exchange_accepting_silently ∅ "buy" 100 None ready
    = (Returns (Errored err), s')
    /\ length (placed s') = 1%nat
    /\ order_history (executor s') = [o]
    /\ status o = error.
Proof.
  destruct (execute_order_accepted_but_recorded_as_error
              exchange_accepting_silently ∅ "buy" 100 None ready
              {| pc_side := "buy"; pc_sz := 100; pc_ordType := "market";
                 pc_px := None |}
              (snd (check_position_size exchange_accepting_silently ∅ 100
                      (snd (_can_place_order exchange_accepting_silently ∅
                              ready))))
              {| code := Some "0"%string; msg := None; data := Some [] |})
    as (err & s' & o & Hrun & Hplaced & Hhist & Hstatus & _).
  - do 2 eexists. repeat split; vm_compute; reflexivity.
  - reflexivity.
  - reflexivity.
  - left. reflexivity.
  - exists err, s', o. rewrite Hplaced. repeat split; assumption.
Defined.

Lemma execute_order_raises_when_price_feed_down_witness :
  exists s',
    execute_order outage ∅ "buy" 100 None ready = (Raises "offline", s')
    /\ executor s' = executor ready
    /\ placed s' = [].
Proof.
  apply (execute_order_raises_when_price_feed_down outage ∅ "buy" 100 None
           ready "offline").
  - vm_compute. reflexivity.
  - vm_compute. reflexivity.
  - intros n. reflexivity.
Defined.

Lemma trade_history_rows_by_limit_witness :
  fst (get_trade_history_rows 0 (with_ledger [failed_order; filled_order]))
  = Returns [failed_order; filled_order].
Proof.
  destruct (trade_history_rows_by_limit 0
              (with_ledger [failed_order; filled_order])
              [failed_order] filled_order)
    as (rows & Hrun & Hall & _).
  - reflexivity.
  - reflexivity.
  - lia.
  - rewrite Hrun. cbn [fst]. rewrite (Hall eq_refl). reflexivity.
Defined.

Lemma trade_history_without_success_witness :
  get_trade_history_rows 50 (with_ledger [failed_order])
  = (Raises "KeyError", with_ledger [failed_order]).
Proof.
  apply (trade_history_without_success 50 (with_ledger [failed_order])).
  - discriminate.
  - constructor; [reflexivity|constructor].
Defined.

Lemma mock_candlesticks_no_look_ahead_witness :
  length (mock_get_candlesticks pyramiding_prices 52 20) = 20%nat
  /\ mock_get_candlesticks (take 53 pyramiding_prices) 52 20
     = mock_get_candlesticks pyramiding_prices 52 20.
Proof.
  destruct (mock_candlesticks_no_look_ahead pyramiding_prices 52 20)
    as (_ & Hlen & _ & Hsame).
  - vm_compute. lia.
  - lia.
  - split; [exact Hlen|]. apply Hsame. vm_compute. reflexivity.
Defined.

Lemma max_drawdown_nonpositive_witness :
  Forall (fun d => d <= 0) (drawdown [1000; 990; 1010]).
Proof.
  apply (max_drawdown_nonpositive [1000; 990; 1010]).
  repeat constructor.
Defined.

Lemma report_shape_witness :
  exists r,
    run_backtest ∅ pyramiding_signals pyramiding_prices 1000 = Returns r
    /\ (num_trades r <= 4)%nat
    /\ length (res_cash r) = 54%nat.
Proof.
  eexists. split; [vm_compute; reflexivity|].
  match goal with
  | |- (num_trades ?r <= _)%nat /\ _ =>
      destruct (report_shape ∅ pyramiding_signals pyramiding_prices 1000 r)
        as (Hcount & _ & _ & Hlen & _)
  end.
  - vm_compute. reflexivity.
  - split; [exact Hcount | exact Hlen].
Defined.

Lemma idle_replay_returns_the_capital_witness :
  exists r,
    run_backtest ∅ abstaining_signals pyramiding_prices 1000 = Returns r
    /\ res_trade_log r = []
    /\ final_value r == 1000.
Proof.
  destruct (idle_replay_returns_the_capital ∅ abstaining_signals
              pyramiding_prices 1000)
    as (r & Hrun & Hlog & _ & _ & _ & _ & Hfinal & _).
  - vm_compute. lia.
  - intros i. vm_compute. reflexivity.
  - exists r. repeat split; assumption.
Defined.

Lemma toggled_strategy_reads_back_witness :
  ConfigManager.is_strategy_enabled
    (ConfigManager.update_strategy_status "bollinger" false sample_manager)
    "bollinger"
  = Returns (ConfigManager.VBool false).
Proof.
  apply (toggled_strategy_reads_back "bollinger" false sample_manager
           {[ "enabled"%string := ConfigManager.VBool true;
              "period"%string := ConfigManager.VNum 20 ]}).
  vm_compute. reflexivity.
Defined.

Lemma enabling_unknown_strategy_breaks_the_query_witness :
  ConfigManager.is_strategy_enabled
    (ConfigManager.update_strategy_status "ghost" true sample_manager) "ghost"
  = Raises "KeyError".
Proof.
  apply (enabling_unknown_strategy_breaks_the_query "ghost" sample_manager).
  vm_compute. reflexivity.
Defined.

Lemma toggling_leaves_other_strategies_witness :
  ConfigManager.is_strategy_enabled
    (ConfigManager.update_strategy_status "ghost" true sample_manager)
    "bollinger"
  = ConfigManager.is_strategy_enabled sample_manager "bollinger".
Proof.
  apply (toggling_leaves_other_strategies "ghost" true "bollinger"
           sample_manager).
  discriminate.
Defined.

Lemma cached_price_expires_witness :
  answer (get_current_price
            (cache_after (get_current_price empty_cache 1000 (Returns (1 # 10))))
            1003 (Raises "timeout"))
  = Returns (1 # 10).
Proof.
  destruct (cached_price_expires empty_cache 1000 (1 # 10) 1003 "timeout")
    as (_ & Hstale & _).
  - vm_compute. reflexivity.
  - vm_compute. reflexivity.
  - vm_compute. discriminate.
  - apply Hstale. vm_compute. reflexivity.
Defined.

Lemma should_trade_after_combining_witness :
  should_trade_with (combine_signals ∅ [confident "bollinger" (8 # 10)]) (3 # 10)
  = true.
Proof.
  apply (should_trade_after_combining ∅ [confident "bollinger" (8 # 10)]
           (3 # 10)).
  split; vm_compute; first [reflexivity | discriminate].
Defined.

End FurtherCases.
